(** * A command-pattern calculator: the four built-in operations, the plugin
      loader, the command registry and the read-eval-print loop of
      [calculator.py], embedded shallowly and verified against its
      specification.

    Python [float] is IEEE 754 binary64; it is modelled by the Standard
    Library's [spec_float] at precision 53 and maximal exponent 1024, whose
    operations round to nearest, ties to even, exactly as the hardware
    operations CPython calls.  Effects (logging, exceptions) are threaded
    through a small state-and-exception monad [py]. *)

From Stdlib Require Import ZArith Lia Bool List String Ascii.
From Stdlib Require Import SpecFloat.
From stdpp Require Import base gmap strings list sorting.

Local Open Scope string_scope.

(* ===================================================================== *)
(** * Python floats *)
(* ===================================================================== *)

(** [spec_float] has one NaN: the sign and the payload of a NaN, which
    IEEE 754 leaves to the hardware, are not modelled.  What is stated below
    of a NaN result holds of whichever NaN the interpreter returns; Python's
    [==] is [eqb], which is false on every NaN. *)
Module Float.

Definition prec : Z := 53.
Definition emax : Z := 1024.

Definition add : spec_float -> spec_float -> spec_float := SFadd prec emax.
Definition sub : spec_float -> spec_float -> spec_float := SFsub prec emax.
Definition mul : spec_float -> spec_float -> spec_float := SFmul prec emax.
Definition div : spec_float -> spec_float -> spec_float := SFdiv prec emax.

(** [x == y] on floats: false as soon as one side is a NaN, and the two
    zeros compare equal. *)
Definition eqb : spec_float -> spec_float -> bool := SFeqb.
Definition leb : spec_float -> spec_float -> bool := SFleb.
Definition abs : spec_float -> spec_float := SFabs.

(** [float(i)] for a Python int [i] (no overflow check is needed for the
    literals [0] and [1] the program uses). *)
Definition of_int (z : Z) : spec_float := binary_normalize prec emax z 0 false.

Definition zero : spec_float := S754_zero false.
Definition one : spec_float := of_int 1.
Definition inf (s : bool) : spec_float := S754_infinity s.
Definition nan : spec_float := S754_nan.

Definition is_zero (x : spec_float) : bool :=
  match x with S754_zero _ => true | _ => false end.

Definition is_nan (x : spec_float) : bool :=
  match x with S754_nan => true | _ => false end.

(** C's [isfinite]. *)
Definition is_finite (x : spec_float) : bool :=
  match x with S754_zero _ | S754_finite _ _ _ => true | _ => false end.

End Float.

Abbreviation float := spec_float.

(* ===================================================================== *)
(** * Exceptions *)
(* ===================================================================== *)

(** The part of Python's built-in exception hierarchy the program can meet. *)
Inductive exception_class :=
| BaseException
| Exception
| ArithmeticError
| ZeroDivisionError
| LookupError
| IndexError
| ValueError
| TypeError
| AttributeError
| EOFError
| ImportError
| ModuleNotFoundError
| KeyboardInterrupt
| SystemExit.

#[global] Instance exception_class_eq_dec : EqDecision exception_class.
Proof. solve_decision. Defined.

(** Direct base class. *)
Definition base_of (c : exception_class) : option exception_class :=
  match c with
  | BaseException => None
  | Exception | KeyboardInterrupt | SystemExit => Some BaseException
  | ArithmeticError | LookupError | ValueError | TypeError
  | AttributeError | EOFError | ImportError => Some Exception
  | ZeroDivisionError => Some ArithmeticError
  | IndexError => Some LookupError
  | ModuleNotFoundError => Some ImportError
  end.

(** The chain [c, base c, base (base c), ...]; the hierarchy is four deep. *)
Fixpoint ancestors (fuel : nat) (c : exception_class) : list exception_class :=
  match fuel with
  | O => [c]
  | S fuel' => c :: match base_of c with
                    | Some b => ancestors fuel' b
                    | None => []
                    end
  end.

Definition issubclass (c d : exception_class) : bool :=
  bool_decide (d ∈ ancestors 4 c).

Record exception := mk_exception { exc_class : exception_class; exc_msg : string }.

#[global] Instance exception_eq_dec : EqDecision exception.
Proof. solve_decision. Defined.

(* ===================================================================== *)
(** * Values, log records and the effect monad *)
(* ===================================================================== *)

(** What [execute] can return: the int literals [0] and [1], a float, or
    an error string. *)
Inductive value :=
| VInt (z : Z)
| VFloat (x : float)
| VStr (s : string).

Inductive level := INFO | WARNING | ERROR.

(** The program's log lines, one constructor per f-string. *)
Inductive message :=
| Msg_started
| Msg_executed (command : string) (args : list string) (result : value)
| Msg_invalid_input (operation : string) (args : list string)
| Msg_division_by_zero
| Msg_loaded_plugin (module_name : string)
| Msg_package_not_found (plugin_package : string)
| Msg_error_loading (e : exception)
| Msg_user_exited
| Msg_keyboard_interrupt.

(** The observable state a call can change: the log, and a ghost counter of
    the float divisions executed so far. *)
Record world := mk_world {
  logged : list (level * message);
  truedivs : nat
}.

Inductive outcome (A : Type) :=
| Return (a : A)
| Raise (e : exception).
Arguments Return {A} a.
Arguments Raise {A} e.

(** A computation over a state [S]: it returns or raises, and leaves a state
    behind either way. *)
Definition eff (S A : Type) : Type := S -> outcome A * S.

(** The commands' [execute] methods run over [world]. *)
Abbreviation py := (eff world).

Definition ret {S A} (a : A) : eff S A := fun s => (Return a, s).

Definition bind {S A B} (m : eff S A) (k : A -> eff S B) : eff S B :=
  fun s => match m s with
           | (Return a, s') => k a s'
           | (Raise e, s') => (Raise e, s')
           end.

Definition raise_exc {S A} (e : exception) : eff S A := fun s => (Raise e, s).

Definition raise {S A} (c : exception_class) (msg : string) : eff S A :=
  raise_exc (mk_exception c msg).

Notation "x <- m ;; k" := (bind m (fun x => k))
  (at level 100, m at next level, k at level 200, right associativity).
Notation "m ;; k" := (bind m (fun _ => k))
  (at level 100, k at level 200, right associativity).

(** [try: body  except C1: h1  except C2: h2 ...]: the first clause whose
    class the raised exception is an instance of handles it. *)
Fixpoint select_handler {S A} (e : exception)
    (handlers : list (exception_class * (exception -> eff S A))) : option (eff S A) :=
  match handlers with
  | [] => None
  | (c, h) :: handlers' =>
      if issubclass (exc_class e) c then Some (h e) else select_handler e handlers'
  end.

Definition try_except {S A} (body : eff S A)
    (handlers : list (exception_class * (exception -> eff S A))) : eff S A :=
  fun s => match body s with
           | (Return a, s') => (Return a, s')
           | (Raise e, s') =>
               match select_handler e handlers with
               | Some h => h s'
               | None => (Raise e, s')
               end
           end.

Definition logger_log (l : level) (m : message) : py unit :=
  fun w => (Return tt, mk_world (logged w ++ [(l, m)]) (truedivs w)).

Definition logger_info := logger_log INFO.
Definition logger_warning := logger_log WARNING.
Definition logger_error := logger_log ERROR.

(* ===================================================================== *)
(** * The interpreter's built-ins *)
(* ===================================================================== *)

(** ** [float(str)] on ASCII text

    The literal grammar of the language reference: surrounding whitespace is
    dropped; an optional sign is followed by [inf], [infinity] or [nan] in any
    letter case, or by a decimal number with an optional exponent;
    underscores may separate digits.  The decimal value is rounded to the
    nearest binary64, ties to even.  Text with characters outside ASCII,
    where [float] also takes Unicode digits and whitespace, is not covered:
    it is rejected here. *)
Module Literal.

(** The whitespace [float] drops around an ASCII literal: tab to carriage
    return, and the space. *)
Definition is_space (c : ascii) : bool :=
  let n := nat_of_ascii c in
  ((9 <=? n)%nat && (n <=? 13)%nat) || (n =? 32)%nat.

Definition digit_of (c : ascii) : option Z :=
  let n := nat_of_ascii c in
  if (48 <=? n)%nat && (n <=? 57)%nat then Some (Z.of_nat (n - 48)) else None.

Definition lower (c : ascii) : ascii :=
  let n := nat_of_ascii c in
  if (65 <=? n)%nat && (n <=? 90)%nat then ascii_of_nat (n + 32) else c.

Fixpoint lstrip (s : list ascii) : list ascii :=
  match s with
  | c :: s' => if is_space c then lstrip s' else s
  | [] => []
  end.

Definition strip (s : list ascii) : list ascii := rev (lstrip (rev (lstrip s))).

(** [(["_"] digit)*] *)
Fixpoint digitpart_rest (s : list ascii) : list Z * list ascii :=
  match s with
  | [] => ([], [])
  | c :: s' =>
      match digit_of c with
      | Some d => let (ds, r) := digitpart_rest s' in (d :: ds, r)
      | None =>
          if Ascii.eqb c "_" then
            match s' with
            | c' :: s'' =>
                match digit_of c' with
                | Some d => let (ds, r) := digitpart_rest s'' in (d :: ds, r)
                | None => ([], s)
                end
            | [] => ([], s)
            end
          else ([], s)
      end
  end.

(** [digit (["_"] digit)*] *)
Definition digitpart (s : list ascii) : option (list Z * list ascii) :=
  match s with
  | c :: s' =>
      match digit_of c with
      | Some d => let (ds, r) := digitpart_rest s' in Some (d :: ds, r)
      | None => None
      end
  | [] => None
  end.

Definition to_Z (ds : list Z) : Z := fold_left (fun acc d => 10 * acc + d)%Z ds 0%Z.

(** [[digitpart] "." digitpart | digitpart ["."]]: integer digits, fraction
    digits and what follows. *)
Definition number (s : list ascii) : option (list Z * list Z * list ascii) :=
  match digitpart s with
  | Some (ip, r) =>
      match r with
      | "."%char :: r' =>
          match digitpart r' with
          | Some (fp, r'') => Some (ip, fp, r'')
          | None => Some (ip, [], r')
          end
      | _ => Some (ip, [], r)
      end
  | None =>
      match s with
      | "."%char :: r' =>
          match digitpart r' with
          | Some (fp, r'') => Some ([], fp, r'')
          | None => None
          end
      | _ => None
      end
  end.

Definition sign (s : list ascii) : bool * list ascii :=
  match s with
  | "-"%char :: r => (true, r)
  | "+"%char :: r => (false, r)
  | _ => (false, s)
  end.

(** [("e" | "E") [sign] digitpart], or nothing; it must end the text. *)
Definition exponent (s : list ascii) : option Z :=
  match s with
  | [] => Some 0%Z
  | c :: r =>
      if Ascii.eqb (lower c) "e" then
        let (neg, r') := sign r in
        match digitpart r' with
        | Some (ds, []) => Some (if neg then (- to_Z ds)%Z else to_Z ds)
        | _ => None
        end
      else None
  end.

(** The binary64 nearest to [± m * 10 ^ e]. *)
Definition scale (neg : bool) (m e : Z) : float :=
  match m with
  | Zpos p =>
      if (0 <=? e)%Z then
        binary_normalize Float.prec Float.emax (cond_Zopp neg (m * 10 ^ e)) 0 false
      else
        SFdiv Float.prec Float.emax
          (S754_finite neg p 0) (S754_finite false (Z.to_pos (10 ^ (- e))) 0)
  | _ => S754_zero neg
  end.

Definition float_of_string (s : string) : option float :=
  let (neg, body) := sign (strip (list_ascii_of_string s)) in
  let word := string_of_list_ascii (map lower body) in
  if String.eqb word "inf" || String.eqb word "infinity" then Some (S754_infinity neg)
  else if String.eqb word "nan" then Some S754_nan
  else
    match number body with
    | Some (ip, fp, r) =>
        match exponent r with
        | Some e => Some (scale neg (to_Z (ip ++ fp)) (e - Z.of_nat (length fp)))
        | None => None
        end
    | None => None
    end.

End Literal.

(** ** The interpreter the program runs on

    [float_of_str] is the built-in [float] applied to a [str]: [None] stands
    for the [ValueError] it raises on text that is not a float literal.
    [float_sum] is how the built-in [sum] adds floats: plainly from left to
    right (CPython up to 3.11), or with the Neumaier compensation (CPython
    3.12 and later). *)
Inductive sum_algorithm := LeftToRight | Compensated.

Record runtime := mk_runtime {
  float_of_str : string -> option float;
  float_sum : sum_algorithm
}.

Definition cpython311 : runtime := mk_runtime Literal.float_of_string LeftToRight.
Definition cpython312 : runtime := mk_runtime Literal.float_of_string Compensated.

(** A Python number: [sum] of no item at all is the int [0]. *)
Inductive number :=
| Int (z : Z)
| Float (x : float).

Definition value_of_number (n : number) : value :=
  match n with
  | Int z => VInt z
  | Float x => VFloat x
  end.

(** [x - n] for a float [x]: an int operand is converted first. *)
Definition float_sub (x : float) (n : number) : float :=
  match n with
  | Int z => Float.sub x (Float.of_int z)
  | Float y => Float.sub x y
  end.

(** [x / y] on floats; the ghost counter records each division performed. *)
Definition truediv (x y : float) : py float :=
  if Float.eqb y Float.zero then raise ZeroDivisionError "float division by zero"
  else fun w => (Return (Float.div x y), mk_world (logged w) (S (truedivs w))).

(** [l[i]] *)
Definition getitem {A} (l : list A) (i : nat) : py A :=
  match l !! i with
  | Some x => ret x
  | None => raise IndexError "list index out of range"
  end.

(** [list(it)]: an iterator is the list of its suspended items, each of
    which may raise when it is drawn. *)
Fixpoint list_ {A} (it : list (py A)) : py (list A) :=
  match it with
  | [] => ret []
  | item :: it' => x <- item ;; xs <- list_ it' ;; ret (x :: xs)
  end.

(** The float loop of [sum] up to CPython 3.11: [f_result += x]. *)
Fixpoint sum_left_to_right (f_result : float) (it : list (py float)) : py float :=
  match it with
  | [] => ret f_result
  | item :: it' => x <- item ;; sum_left_to_right (Float.add f_result x) it'
  end.

(** The float loop of [sum] from CPython 3.12 on: the running sum
    [f_result] and the accumulated rounding error [c], which is added at the
    end if it is non-zero and finite. *)
Fixpoint sum_compensated (f_result c : float) (it : list (py float)) : py float :=
  match it with
  | [] =>
      ret (if negb (Float.is_zero c) && Float.is_finite c
           then Float.add f_result c else f_result)
  | item :: it' =>
      x <- item ;;
      let t := Float.add f_result x in
      let c' :=
        if Float.leb (Float.abs x) (Float.abs f_result)
        then Float.add c (Float.add (Float.sub f_result t) x)
        else Float.add c (Float.add (Float.sub x t) f_result) in
      sum_compensated t c' it'
  end.

(** What [float] raises on text that is not a float literal. *)
Definition could_not_convert : exception :=
  mk_exception ValueError "could not convert string to float".

Section Program.

Variable rt : runtime.

(** [float(s)] *)
Definition py_float (s : string) : py float :=
  match float_of_str rt s with
  | Some x => ret x
  | None => raise_exc could_not_convert
  end.

(** [sum(it)] for an iterator of floats, started at the int [0]: the first
    item is added to [0] as [0.0 + x], the others to the running float. *)
Definition sum (it : list (py float)) : py number :=
  match it with
  | [] => ret (Int 0)
  | item :: it' =>
      x <- item ;;
      let f_result := Float.add (Float.of_int 0) x in
      r <- match float_sum rt with
           | LeftToRight => sum_left_to_right f_result it'
           | Compensated => sum_compensated f_result Float.zero it'
           end ;;
      ret (Float r)
  end.

Definition invalid_input : value := VStr "Error: Invalid input".
Definition division_by_zero : value := VStr "Error: Division by zero".
Definition requires_two_numbers : value :=
  VStr "Error: Division requires at least two numbers".

(* ------------------------------------------------------------------- *)
(** ** The four built-in commands *)
(* ------------------------------------------------------------------- *)

Definition AddCommand_execute (args : list string) : py value :=
  try_except
    (match args with
     | [] => ret (VInt 0)
     | _ =>
         result <- sum (map py_float args) ;;
         logger_info (Msg_executed "AddCommand" args (value_of_number result)) ;;
         ret (value_of_number result)
     end)
    [(ValueError, fun _ =>
        logger_error (Msg_invalid_input "addition" args) ;;
        ret invalid_input)].

Definition SubtractCommand_execute (args : list string) : py value :=
  try_except
    (match args with
     | [] => ret invalid_input
     | _ =>
         numbers <- list_ (map py_float args) ;;
         first <- getitem numbers 0 ;;
         rest <- sum (map ret (drop 1 numbers)) ;;
         let result := float_sub first rest in
         logger_info (Msg_executed "SubtractCommand" args (VFloat result)) ;;
         ret (VFloat result)
     end)
    [(ValueError, fun _ =>
        logger_error (Msg_invalid_input "subtraction" args) ;;
        ret invalid_input)].

Fixpoint multiply_loop (result : float) (it : list (py float)) : py float :=
  match it with
  | [] => ret result
  | item :: it' => num <- item ;; multiply_loop (Float.mul result num) it'
  end.

Definition MultiplyCommand_execute (args : list string) : py value :=
  try_except
    (match args with
     | [] => ret (VInt 1)
     | _ =>
         result <- multiply_loop Float.one (map py_float args) ;;
         logger_info (Msg_executed "MultiplyCommand" args (VFloat result)) ;;
         ret (VFloat result)
     end)
    [(ValueError, fun _ =>
        logger_error (Msg_invalid_input "multiplication" args) ;;
        ret invalid_input)].

(** The [for num in numbers[1:]] loop of [DivideCommand]; [inl v] is the
    [return v] inside the loop, [inr result] its normal end. *)
Fixpoint divide_loop (result : float) (numbers : list float) : py (value + float) :=
  match numbers with
  | [] => ret (inr result)
  | num :: numbers' =>
      if Float.eqb num (Float.of_int 0) then
        logger_error Msg_division_by_zero ;;
        ret (inl division_by_zero)
      else
        result' <- truediv result num ;;
        divide_loop result' numbers'
  end.

Definition DivideCommand_execute (args : list string) : py value :=
  try_except
    (match args with
     | [] => ret invalid_input
     | _ =>
         numbers <- list_ (map py_float args) ;;
         if (length numbers =? 1)%nat then ret requires_two_numbers
         else
           first <- getitem numbers 0 ;;
           r <- divide_loop first (drop 1 numbers) ;;
           match r with
           | inl v => ret v
           | inr result =>
               logger_info (Msg_executed "DivideCommand" args (VFloat result)) ;;
               ret (VFloat result)
           end
     end)
    [(ValueError, fun _ =>
        logger_error (Msg_invalid_input "division" args) ;;
        ret invalid_input)].

End Program.

(* ===================================================================== *)
(** * Registry entries *)
(* ===================================================================== *)

(** An object the registry can hold: an instance of one of the four
    built-in classes, or an object a plugin supplies, known by what its
    [execute] does. *)
Inductive Command :=
| AddCommand
| SubtractCommand
| MultiplyCommand
| DivideCommand
| PluginCommand (plugin_execute : list string -> py value).

(** [c.execute( *args )] *)
Definition execute (rt : runtime) (c : Command) (args : list string) : py value :=
  match c with
  | AddCommand => AddCommand_execute rt args
  | SubtractCommand => SubtractCommand_execute rt args
  | MultiplyCommand => MultiplyCommand_execute rt args
  | DivideCommand => DivideCommand_execute rt args
  | PluginCommand plugin_execute => plugin_execute args
  end.

(** [d.update(other)]: the entries of [other] win. *)
Definition dict_update (d other : gmap string Command) : gmap string Command :=
  other ∪ d.

(** A computation over [world] run inside a larger state. *)
Definition lift_world {S A} (m : py A) : eff (S * world) A :=
  fun '(s, w) => let (r, w') := m w in (r, (s, w')).

(* ===================================================================== *)
(** * The plugin loader *)
(* ===================================================================== *)

(** An imported module, as far as the loader looks at it.  [mod_path] is
    what reading its [__path__] attribute comes to: the exception the access
    raises (the interpreter's [AttributeError] for a module that is not a
    package), or the sub-module names [pkgutil.iter_modules] yields for it
    and the exception that iteration ends with, if any.  [mod_COMMANDS] is
    its [COMMANDS] attribute, if it has one, given by the entries
    [dict.update] takes from it and the exception [update] then fails with,
    if the attribute is not a well-formed mapping. *)
Record module := mk_module {
  mod_path : exception + (list string * option exception);
  mod_COMMANDS : option (gmap string Command * option exception)
}.

Module PluginLoader.

(** The loader object [self]. *)
Record self := mk_self {
  plugin_package : string;
  commands : gmap string Command
}.

Section Importing.

(** [importlib.import_module]: the module, or the exception the import
    machinery or the module's own top-level code raises. *)
Variable import_module : string -> exception + module.

Definition importlib_import_module {S} (name : string) : eff S module :=
  match import_module name with
  | inl e => raise_exc e
  | inr m => ret m
  end.

(** [package.__path__] *)
Definition get_path {S} (package : module)
  : eff S (list string * option exception) :=
  match mod_path package with
  | inr p => ret p
  | inl e => raise_exc e
  end.

Definition get_plugin_package : eff (self * world) string :=
  fun '(this, w) => (Return (plugin_package this), (this, w)).

(** [self.commands.update(module.COMMANDS)] *)
Definition commands_update (attr : gmap string Command * option exception)
  : eff (self * world) unit :=
  fun '(this, w) =>
    let this' := mk_self (plugin_package this) (dict_update (commands this) attr.1) in
    match attr.2 with
    | None => (Return tt, (this', w))
    | Some e => (Raise e, (this', w))
    end.

(** The [for] loop over the names [iter_modules] yields. *)
Fixpoint load_modules (names : list string) (stop : option exception)
  : eff (self * world) unit :=
  match names with
  | [] =>
      match stop with
      | None => ret tt
      | Some e => raise_exc e
      end
  | module_name :: names' =>
      package_name <- get_plugin_package ;;
      module <- importlib_import_module (package_name +:+ "." +:+ module_name) ;;
      (match mod_COMMANDS module with
       | Some attr =>
           commands_update attr ;;
           lift_world (logger_info (Msg_loaded_plugin module_name))
       | None => ret tt
       end) ;;
      load_modules names' stop
  end.

(** The body of the [try] statement. *)
Definition load_plugins_body : eff (self * world) unit :=
  package_name <- get_plugin_package ;;
  package <- importlib_import_module package_name ;;
  path <- get_path package ;;
  load_modules path.1 path.2.

Definition load_plugins : eff (self * world) unit :=
  try_except load_plugins_body
    [(ModuleNotFoundError, fun _ =>
        package_name <- get_plugin_package ;;
        lift_world (logger_warning (Msg_package_not_found package_name)));
     (Exception, fun e =>
        lift_world (logger_error (Msg_error_loading e)))].

(** [PluginLoader(plugin_package)] *)
Definition init (plugin_package : string) : py self :=
  fun w =>
    match load_plugins (mk_self plugin_package ∅, w) with
    | (Return _, (this, w')) => (Return this, w')
    | (Raise e, (_, w')) => (Raise e, w')
    end.

End Importing.

End PluginLoader.

(* ===================================================================== *)
(** * The registry and the read-eval-print loop *)
(* ===================================================================== *)

Module Str.

(** A Python [str] is a sequence of code points; a [string] here is its
    UTF-8 encoding, and the whitespace characters of [str.isspace] are
    recognised by their encodings. *)

(** U+0009..U+000D, U+001C..U+0020 *)
Definition ascii_space (c : ascii) : bool :=
  let n := nat_of_ascii c in
  ((9 <=? n)%nat && (n <=? 13)%nat) || ((28 <=? n)%nat && (n <=? 32)%nat).

(** U+0085 and U+00A0 *)
Definition two_byte_space (c1 c2 : ascii) : bool :=
  let n1 := nat_of_ascii c1 in
  let n2 := nat_of_ascii c2 in
  (n1 =? 194)%nat && ((n2 =? 133)%nat || (n2 =? 160)%nat).

(** U+1680; U+2000..U+200A, U+2028, U+2029, U+202F; U+205F; U+3000 *)
Definition three_byte_space (c1 c2 c3 : ascii) : bool :=
  let n1 := nat_of_ascii c1 in
  let n2 := nat_of_ascii c2 in
  let n3 := nat_of_ascii c3 in
  ((n1 =? 225)%nat && (n2 =? 154)%nat && (n3 =? 128)%nat)
  || ((n1 =? 226)%nat && (n2 =? 128)%nat
      && (((128 <=? n3)%nat && (n3 <=? 138)%nat)
          || (n3 =? 168)%nat || (n3 =? 169)%nat || (n3 =? 175)%nat))
  || ((n1 =? 226)%nat && (n2 =? 129)%nat && (n3 =? 159)%nat)
  || ((n1 =? 227)%nat && (n2 =? 128)%nat && (n3 =? 128)%nat).

(** The number of bytes of the whitespace character the text starts with;
    0 if it starts with none. *)
Definition space_width (s : list ascii) : nat :=
  match s with
  | [] => 0
  | c1 :: s1 =>
      if ascii_space c1 then 1
      else
        match s1 with
        | [] => 0
        | c2 :: s2 =>
            if two_byte_space c1 c2 then 2
            else
              match s2 with
              | [] => 0
              | c3 :: _ => if three_byte_space c1 c2 c3 then 3 else 0
              end
        end
  end.

(** The token collected so far, if any, in front of the tokens that
    follow. *)
Definition flush (cur : list ascii) (tokens : list string) : list string :=
  match cur with
  | [] => tokens
  | _ => string_of_list_ascii (rev cur) :: tokens
  end.

(** [s.split()]: the maximal runs of non-whitespace characters.  [skip]
    counts the bytes still to pass of the whitespace character the scan is
    in, [cur] holds the bytes of the current token, last first. *)
Fixpoint split_from (skip : nat) (cur : list ascii) (s : list ascii) : list string :=
  match s with
  | [] => flush cur []
  | c :: s' =>
      match skip with
      | S k => split_from k cur s'
      | O =>
          match space_width s with
          | O => split_from 0 (c :: cur) s'
          | S k => flush cur (split_from k [] s')
          end
      end
  end.

Definition split (s : string) : list string :=
  split_from 0 [] (list_ascii_of_string s).

(** [s.lstrip()] *)
Fixpoint lstrip_from (skip : nat) (s : list ascii) : list ascii :=
  match s with
  | [] => []
  | c :: s' =>
      match skip with
      | S k => lstrip_from k s'
      | O =>
          match space_width s with
          | O => s
          | S k => lstrip_from k s'
          end
      end
  end.

(** [s.rstrip()]: a byte of a whitespace character stays only if something
    stays behind it. *)
Fixpoint rstrip_from (skip : nat) (s : list ascii) : list ascii :=
  match s with
  | [] => []
  | c :: s' =>
      match skip with
      | S k =>
          match rstrip_from k s' with
          | [] => []
          | r => c :: r
          end
      | O =>
          match space_width s with
          | O => c :: rstrip_from 0 s'
          | S k =>
              match rstrip_from k s' with
              | [] => []
              | r => c :: r
              end
          end
      end
  end.

(** [s.strip()] *)
Definition strip (s : string) : string :=
  string_of_list_ascii (rstrip_from 0 (lstrip_from 0 (list_ascii_of_string s))).

(** [sep.join(l)] *)
Fixpoint join (sep : string) (l : list string) : string :=
  match l with
  | [] => ""
  | [x] => x
  | x :: l' => x +:+ sep +:+ join sep l'
  end.

Definition le (a b : string) : Prop := String.leb a b = true.

#[global] Instance le_dec : RelDecision le.
Proof. intros a b. unfold le. apply _. Defined.

(** [sorted(l)] *)
Definition sorted (l : list string) : list string := merge_sort le l.

End Str.

(** What appears on standard output: the prompt [input] writes, and the
    objects of each [print] call. *)
Inductive output :=
| Prompt (s : string)
| Print (objects : list value).

(** What [input] finds on standard input; the end of the list is the end of
    the input. *)
Inductive stdin_event :=
| Line (s : string)
| CtrlC.

(** The module's global [commands] and the terminal. *)
Record process := mk_process {
  commands : gmap string Command;
  stdout : list output
}.

Definition builtin_commands : gmap string Command :=
  <["divide" := DivideCommand]>
    (<["multiply" := MultiplyCommand]>
       (<["subtract" := SubtractCommand]>
          (<["add" := AddCommand]> ∅))).

Section Calculator.

Variable rt : runtime.
Variable import_module : string -> exception + module.

Definition load_dynamic_commands : py (gmap string Command) :=
  plugin_loader <- PluginLoader.init import_module "plugins" ;;
  ret (PluginLoader.commands plugin_loader).

(** The module's top-level code up to the definition of [repl]: it leaves
    the global [commands]. *)
Definition module_init : py (gmap string Command) :=
  logger_info Msg_started ;;
  let commands := builtin_commands in
  dynamic <- load_dynamic_commands ;;
  ret (dict_update commands dynamic).

Definition get_commands : eff (process * world) (gmap string Command) :=
  fun '(p, w) => (Return (commands p), (p, w)).

Definition print (objects : list value) : eff (process * world) unit :=
  fun '(p, w) =>
    (Return tt, (mk_process (commands p) (stdout p ++ [Print objects]), w)).

Definition input (prompt : string) (ev : option stdin_event)
  : eff (process * world) string :=
  fun '(p, w) =>
    let p' := mk_process (commands p) (stdout p ++ [Prompt prompt]) in
    match ev with
    | Some (Line s) => (Return s, (p', w))
    | Some CtrlC => (Raise (mk_exception KeyboardInterrupt ""), (p', w))
    | None => (Raise (mk_exception EOFError "EOF when reading a line"), (p', w))
    end.

Definition goodbye : string := "Exiting calculator. Goodbye!".

(** One turn of the [while True] loop; [true] goes on to the next turn,
    [false] is [break]. *)
Definition repl_iteration (ev : option stdin_event) : eff (process * world) bool :=
  try_except
    (line <- input "Enter command: " ev ;;
     let user_input := Str.split (Str.strip line) in
     match user_input with
     | [] => ret true
     | command_name :: args =>
         if String.eqb command_name "exit" then
           print [VStr goodbye] ;;
           lift_world (logger_info Msg_user_exited) ;;
           ret false
         else if String.eqb command_name "menu" then
           cmds <- get_commands ;;
           print [VStr "Available commands:";
                  VStr (Str.join ", " (Str.sorted (map_to_list cmds).*1))] ;;
           ret true
         else
           cmds <- get_commands ;;
           match cmds !! command_name with
           | Some c =>
               result <- lift_world (execute rt c args) ;;
               print [VStr "Result:"; result] ;;
               ret true
           | None =>
               print [VStr "Invalid command. Type 'menu' to see available commands."] ;;
               ret true
           end
     end)
    [(KeyboardInterrupt, fun _ =>
        print [VStr (String (ascii_of_nat 10) goodbye)] ;;
        lift_world (logger_info Msg_keyboard_interrupt) ;;
        ret false)].

Fixpoint repl_loop (stdin : list stdin_event) : eff (process * world) unit :=
  match stdin with
  | [] => repl_iteration None ;; ret tt
  | ev :: stdin' =>
      go_on <- repl_iteration (Some ev) ;;
      if go_on : bool then repl_loop stdin' else ret tt
  end.

Definition repl (stdin : list stdin_event) : eff (process * world) unit :=
  print [VStr "Welcome to the Command Pattern Calculator! Type 'menu' to see available commands, or 'exit' to quit."] ;;
  repl_loop stdin.

(** Running [calculator.py] as a script. *)
Definition main (stdin : list stdin_event) : eff world unit :=
  fun w =>
    match module_init w with
    | (Return cmds, w') =>
        let '(r, (_, w'')) := repl stdin (mk_process cmds [], w') in (r, w'')
    | (Raise e, w') => (Raise e, w')
    end.

End Calculator.

(* ===================================================================== *)
(** * Reference descriptions

    The behaviours the specification names, written down directly; the
    theorems below relate the program to them. *)
(* ===================================================================== *)

(** Every token of a call parsed, or [None] when one of them is not a float
    literal. *)
Definition parse_all (rt : runtime) (args : list string) : option (list float) :=
  mapM (float_of_str rt) args.

(** The divisors in front of the first zero divisor. *)
Fixpoint divisors_before_zero (divisors : list float) : list float :=
  match divisors with
  | [] => []
  | d :: divisors' =>
      if Float.is_zero d then [] else d :: divisors_before_zero divisors'
  end.

(** The first value divided by each following value, left to right. *)
Definition left_fold_quotient (first : float) (divisors : list float) : float :=
  fold_left Float.div divisors first.

(** A number, or one of the three error strings. *)
Definition number_or_error (v : value) : Prop :=
  match v with
  | VInt _ | VFloat _ => True
  | VStr _ => v = invalid_input \/ v = division_by_zero \/ v = requires_two_numbers
  end.

(** An operation that returns on every argument list and in every world,
    with a number or an error string, and with the invalid-input error
    whenever a token fails to parse. *)
Definition never_raises (rt : runtime) (f : list string -> py value) : Prop :=
  forall args w,
    exists v w', f args w = (Return v, w') /\ number_or_error v /\
                 (parse_all rt args = None -> v = invalid_input).

(** What [sum] of exactly two floats comes to under each algorithm. *)
Definition sum_pair (alg : sum_algorithm) (x y : float) : float :=
  let f := Float.add (Float.of_int 0) x in
  let t := Float.add f y in
  match alg with
  | LeftToRight => t
  | Compensated =>
      let c := if Float.leb (Float.abs y) (Float.abs f)
               then Float.add Float.zero (Float.add (Float.sub f t) y)
               else Float.add Float.zero (Float.add (Float.sub y t) f) in
      if negb (Float.is_zero c) && Float.is_finite c then Float.add t c else t
  end.

(** The world a fresh process starts in. *)
Definition initial_world : world := mk_world [] 0.

(** The world after one more log record. *)
Definition logging (w : world) (l : level) (m : message) : world :=
  mk_world (logged w ++ [(l, m)]) (truedivs w).

(** What a pass over a plugin source amounts to: the mappings merged, in
    order; the sub-units reported as loaded; and the failure that stopped
    the pass, if one did. *)
Record loading_report := mk_report {
  merged : list (gmap string Command);
  reported : list string;
  failure : option exception
}.

Section Discovery.

Variable import_module : string -> exception + module.

Fixpoint scan_units (package_name : string) (names : list string)
    (stop : option exception) : loading_report :=
  match names with
  | [] => mk_report [] [] stop
  | name :: names' =>
      match import_module (package_name +:+ "." +:+ name) with
      | inl e => mk_report [] [] (Some e)
      | inr m =>
          match mod_COMMANDS m with
          | None => scan_units package_name names' stop
          | Some (d, Some e) => mk_report [d] [] (Some e)
          | Some (d, None) =>
              let r := scan_units package_name names' stop in
              mk_report (d :: merged r) (name :: reported r) (failure r)
          end
      end
  end.

Definition scan_source (package_name : string) : loading_report :=
  match import_module package_name with
  | inl e => mk_report [] [] (Some e)
  | inr package =>
      match mod_path package with
      | inl e => mk_report [] [] (Some e)
      | inr (names, stop) => scan_units package_name names stop
      end
  end.

End Discovery.

(** The accumulated mapping after the given mappings were merged in order:
    a later entry replaces an earlier one of the same name. *)
Definition merge_all (acc : gmap string Command) (ds : list (gmap string Command))
  : gmap string Command :=
  fold_left dict_update ds acc.

(** The world after the given sub-units were reported as loaded. *)
Definition report_all (w : world) (names : list string) : world :=
  fold_left (fun w name => logging w INFO (Msg_loaded_plugin name)) names w.

(** The loader after a pass: what was merged before the pass ended is kept. *)
Definition loaded (this : PluginLoader.self) (r : loading_report) : PluginLoader.self :=
  PluginLoader.mk_self (PluginLoader.plugin_package this)
    (merge_all (PluginLoader.commands this) (merged r)).

(** How a pass ends.  A failure that is a [ModuleNotFoundError] is logged as
    a warning naming the package, any other [Exception] as an error carrying
    it, and the loader returns; an exception outside [Exception]
    ([KeyboardInterrupt], [SystemExit]) is not handled and leaves the
    loader. *)
Definition conclude (failed : option exception) (package_name : string) (w : world)
  : outcome unit * world :=
  match failed with
  | None => (Return tt, w)
  | Some e =>
      if issubclass (exc_class e) ModuleNotFoundError
      then (Return tt, logging w WARNING (Msg_package_not_found package_name))
      else if issubclass (exc_class e) Exception
      then (Return tt, logging w ERROR (Msg_error_loading e))
      else (Raise e, w)
  end.

(** A computation of the running program that leaves the global [commands]
    as it found it. *)
Definition keeps_commands {A} (m : eff (process * world) A) : Prop :=
  forall p w, commands (m (p, w)).2.1 = commands p.

(* ===================================================================== *)
(** * Sample environments *)
(* ===================================================================== *)

(** The value [float(s)] of a literal the tests compare results with. *)
Definition literal (s : string) : value :=
  match Literal.float_of_string s with
  | Some x => VFloat x
  | None => VStr s
  end.

(** Whether an import gave a module. *)
Definition is_inr {A B} (x : A + B) : bool :=
  match x with
  | inl _ => false
  | inr _ => true
  end.

(** What the interpreter raises for [m.__path__] when the module named
    [name] is not a package, and for the import of a module that is not
    there. *)
Definition no_path (name : string) : exception :=
  mk_exception AttributeError
    ("module '" +:+ name +:+ "' has no attribute '__path__'").

Definition no_module (name : string) : exception :=
  mk_exception ModuleNotFoundError ("No module named '" +:+ name +:+ "'").

(** A plugin package with two sub-units: [a] exports a [COMMANDS] mapping,
    [b] calls [sys.exit()] while it is imported. *)
Definition exiting_plugin : string -> exception + module :=
  fun name =>
    if String.eqb name "plugins" then
      inr (mk_module (inr (["a"; "b"], None)) None)
    else if String.eqb name "plugins.a" then
      inr (mk_module (inl (no_path name))
             (Some ({[ "square" := MultiplyCommand ]}, None)))
    else if String.eqb name "plugins.b" then
      inl (mk_exception SystemExit "")
    else inl (no_module name).

(** A plugin package with three sub-units: [a] exports a [COMMANDS] mapping,
    the import of [b] fails on a name [b] wants from elsewhere. *)
Definition broken_plugin : string -> exception + module :=
  fun name =>
    if String.eqb name "plugins" then
      inr (mk_module (inr (["a"; "b"; "c"], None)) None)
    else if String.eqb name "plugins.a" then
      inr (mk_module (inl (no_path name))
             (Some ({[ "square" := MultiplyCommand ]}, None)))
    else if String.eqb name "plugins.b" then
      inl (mk_exception ImportError "cannot import name 'sqrt' from 'maths'")
    else if String.eqb name "plugins.c" then
      inr (mk_module (inl (no_path name))
             (Some ({[ "cube" := MultiplyCommand ]}, None)))
    else inl (no_module name).

(** The same package, where [b] imports a module that is not installed. *)
Definition missing_dependency : string -> exception + module :=
  fun name =>
    if String.eqb name "plugins.b" then inl (no_module "numpy")
    else broken_plugin name.

(* ===================================================================== *)
(** * Reference descriptions of the arithmetic *)
(* ===================================================================== *)

(** The compensated loop of [sum] over floats already at hand. *)
Fixpoint compensated_fold (f_result c : float) (xs : list float) : float :=
  match xs with
  | [] =>
      if negb (Float.is_zero c) && Float.is_finite c
      then Float.add f_result c else f_result
  | x :: xs' =>
      let t := Float.add f_result x in
      let c' :=
        if Float.leb (Float.abs x) (Float.abs f_result)
        then Float.add c (Float.add (Float.sub f_result t) x)
        else Float.add c (Float.add (Float.sub x t) f_result) in
      compensated_fold t c' xs'
  end.

(** [sum(xs)] for a list of floats: the int [0] for the empty list,
    otherwise the float the chosen algorithm arrives at from [0.0 + x]. *)
Definition sum_floats (alg : sum_algorithm) (xs : list float) : number :=
  match xs with
  | [] => Int 0
  | x :: xs' =>
      let f_result := Float.add (Float.of_int 0) x in
      Float (match alg with
             | LeftToRight => fold_left Float.add xs' f_result
             | Compensated => compensated_fold f_result Float.zero xs'
             end)
  end.

(** The product of the values, from [1.0], left to right. *)
Definition product (xs : list float) : float := fold_left Float.mul xs Float.one.

(** The log grew by at most one record. *)
Definition logged_at_most_one (w w' : world) : Prop :=
  logged w' = logged w \/ exists r : level * message, logged w' = (logged w ++ [r])%list.


(* ===================================================================== *)
(** * Reference descriptions of the loop *)
(* ===================================================================== *)

(** The terminal after [input] wrote its prompt, and after a [print]. *)
Definition prompted (p : process) : process :=
  mk_process (commands p) (stdout p ++ [Prompt "Enter command: "]).

Definition printed (p : process) (objects : list value) : process :=
  mk_process (commands p) (stdout p ++ [Print objects]).

(** The names the [menu] command lists. *)
Definition menu_names (cmds : gmap string Command) : list string :=
  Str.sorted (map_to_list cmds).*1.

(** An input event that ends the session: an interrupt, or a line whose
    first token is [exit]. *)
Definition ends_session (ev : stdin_event) : bool :=
  match ev with
  | CtrlC => true
  | Line s =>
      match Str.split s with
      | command_name :: _ => String.eqb command_name "exit"
      | [] => false
      end
  end.

(** A registry entry that is an instance of a built-in class. *)
Definition is_builtin (c : Command) : Prop :=
  match c with
  | PluginCommand _ => False
  | _ => True
  end.

Definition invalid_command : value :=
  VStr "Invalid command. Type 'menu' to see available commands.".

Definition interrupted_goodbye : value :=
  VStr (String (ascii_of_nat 10) goodbye).

(* ===================================================================== *)
(** * More sample environments *)
(* ===================================================================== *)

(** The float a literal denotes. *)
Definition float_literal (s : string) : float :=
  match Literal.float_of_string s with
  | Some x => x
  | None => Float.nan
  end.

(** No [plugins] package at all. *)
Definition no_plugins : string -> exception + module :=
  fun name => inl (no_module name).

(** A file [plugins.py] instead of a package. *)
Definition plugins_is_a_file : string -> exception + module :=
  fun name =>
    if String.eqb name "plugins" then inr (mk_module (inl (no_path name)) None)
    else inl (no_module name).

(** A package whose sub-units [a] and [b] both export [square], and [b]
    also replaces [add]. *)
Definition two_plugins : string -> exception + module :=
  fun name =>
    if String.eqb name "plugins" then
      inr (mk_module (inr (["a"; "b"], None)) None)
    else if String.eqb name "plugins.a" then
      inr (mk_module (inl (no_path name))
             (Some ({[ "square" := MultiplyCommand ]}, None)))
    else if String.eqb name "plugins.b" then
      inr (mk_module (inl (no_path name))
             (Some (<["add" := SubtractCommand]> {[ "square" := DivideCommand ]}, None)))
    else inl (no_module name).

(** A plugin command whose [execute] raises. *)
Definition failing_command : Command :=
  PluginCommand (fun _ => raise TypeError "unsupported operand type(s)").

(** A process with the built-in registry, and one with a failing plugin in
    addition. *)
Definition builtin_process : process := mk_process builtin_commands [].

Definition plugin_process : process :=
  mk_process (<["boom" := failing_command]> builtin_commands) [].

(* ===================================================================== *)
(** * Facts about binary64 arithmetic *)
(* ===================================================================== *)

Module FloatFacts.

Lemma add_comm (x y : float) : Float.add x y = Float.add y x.
Proof.
  unfold Float.add.
  destruct x as [sx|sx| |sx mx ex], y as [sy|sy| |sy my ey]; try reflexivity;
    try (destruct sx, sy; reflexivity).
  cbn [SFadd]. rewrite (Z.min_comm ey ex). f_equal. apply Z.add_comm.
Qed.

Lemma zero_add (x : float) :
  Float.add (Float.of_int 0) x = if Float.is_zero x then Float.zero else x.
Proof. destruct x as [[]|[]| |]; reflexivity. Qed.

Lemma sub_zero (x : float) : Float.sub x (Float.of_int 0) = x.
Proof. destruct x as [[]|[]| |]; reflexivity. Qed.

Lemma eqb_zero (x : float) : Float.eqb x (Float.of_int 0) = Float.is_zero x.
Proof. destruct x as [[]|[]| |[] ? ?]; reflexivity. Qed.

Lemma eqb_zero' (x : float) : Float.eqb x Float.zero = Float.is_zero x.
Proof. apply eqb_zero. Qed.

(** Python's [==] holds between a float and itself unless it is a NaN. *)
Lemma eqb_refl (x : float) : Float.eqb x x = negb (Float.is_nan x).
Proof.
  destruct x as [s|s| |s m e]; try reflexivity; [destruct s; reflexivity|].
  unfold Float.eqb, SFeqb, SFcompare. rewrite Z.compare_refl.
  change (Pos.compare_cont Eq m m) with (Pos.compare m m).
  rewrite Pos.compare_refl. destruct s; reflexivity.
Qed.

(** Adding a number to the running sum [0.0 + x] commutes. *)
Lemma add_from_zero_comm (x y : float) :
  Float.add (Float.add (Float.of_int 0) x) y
  = Float.add (Float.add (Float.of_int 0) y) x.
Proof.
  rewrite !zero_add.
  destruct x as [[]|[]| |sx mx ex], y as [[]|[]| |sy my ey]; try reflexivity.
  apply add_comm.
Qed.

Lemma sub_self s m e :
  Float.sub (S754_finite s m e) (S754_finite s m e) = Float.zero.
Proof.
  unfold Float.sub. cbn [SFsub]. rewrite Z.min_id, Z.sub_diag. reflexivity.
Qed.

Lemma add_opp s m e :
  Float.add (S754_finite s m e) (S754_finite (negb s) m e) = Float.zero.
Proof.
  unfold Float.add. cbn [SFadd]. rewrite Z.min_id.
  unfold shl_align. rewrite Z.sub_diag. cbn [fst].
  destruct s; cbn [negb cond_Zopp]; rewrite ?Z.add_opp_diag_l, ?Z.add_opp_diag_r;
    reflexivity.
Qed.

Lemma compare_cont_flip p q :
  Pos.compare_cont Eq p q = CompOpp (Pos.compare_cont Eq q p).
Proof. rewrite Pos.compare_cont_antisym. reflexivity. Qed.

Lemma leb_abs_total (x y : float) :
  Float.is_nan x = false -> Float.is_nan y = false ->
  Float.leb (Float.abs x) (Float.abs y) = false ->
  Float.leb (Float.abs y) (Float.abs x) = true.
Proof.
  destruct x as [sx|sx| |sx mx ex], y as [sy|sy| |sy my ey];
    try discriminate; try reflexivity; intros _ _.
  unfold Float.leb, SFleb, Float.abs, SFabs, SFcompare.
  rewrite (Z.compare_antisym ex ey).
  destruct (ex ?= ey)%Z; cbn; try discriminate; try reflexivity.
  rewrite (compare_cont_flip my mx).
  destruct (Pos.compare_cont Eq mx my); cbn; try discriminate; reflexivity.
Qed.

Lemma leb_abs_antisym sx mx ex sy my ey :
  Float.leb (Float.abs (S754_finite sx mx ex)) (Float.abs (S754_finite sy my ey)) = true ->
  Float.leb (Float.abs (S754_finite sy my ey)) (Float.abs (S754_finite sx mx ex)) = true ->
  mx = my /\ ex = ey.
Proof.
  unfold Float.leb, SFleb, Float.abs, SFabs, SFcompare.
  rewrite (Z.compare_antisym ex ey).
  destruct (ex ?= ey)%Z eqn:He; cbn; try discriminate.
  apply Z.compare_eq in He. subst ey.
  rewrite (compare_cont_flip my mx).
  destruct (Pos.compare_cont Eq mx my) eqn:Hm; cbn; try discriminate.
  intros _ _. split; [|reflexivity].
  apply Pos.compare_eq. exact Hm.
Qed.

Lemma add_zero_r s m e z : Float.add (S754_finite s m e) (S754_zero z) = S754_finite s m e.
Proof. reflexivity. Qed.

Lemma add_zero_l s m e z : Float.add (S754_zero z) (S754_finite s m e) = S754_finite s m e.
Proof. reflexivity. Qed.

Lemma compensated_finite_comm sx mx ex sy my ey :
  let x := S754_finite sx mx ex in
  let y := S754_finite sy my ey in
  sum_pair Compensated x y = sum_pair Compensated y x.
Proof.
  intros x y. unfold sum_pair. rewrite !zero_add. subst x y. cbn [Float.is_zero].
  rewrite (add_comm (S754_finite sy my ey) (S754_finite sx mx ex)).
  destruct (Float.leb (Float.abs (S754_finite sy my ey))
              (Float.abs (S754_finite sx mx ex))) eqn:Hyx,
           (Float.leb (Float.abs (S754_finite sx mx ex))
              (Float.abs (S754_finite sy my ey))) eqn:Hxy;
    try reflexivity.
  - destruct (leb_abs_antisym _ _ _ _ _ _ Hxy Hyx) as [-> ->].
    destruct sx, sy; try reflexivity.
    all: pose proof (add_opp true my ey) as Htf;
      pose proof (add_opp false my ey) as Hft; cbn [negb] in Htf, Hft.
    + rewrite Htf. cbn [Float.sub SFsub Float.zero]. rewrite Htf, Hft. reflexivity.
    + rewrite Hft. cbn [Float.sub SFsub Float.zero]. rewrite Htf, Hft. reflexivity.
  - apply leb_abs_total in Hyx; [congruence|reflexivity|reflexivity].
Qed.

(** The sum of two floats does not depend on their order, under either
    algorithm. *)
Lemma sum_pair_comm alg (x y : float) : sum_pair alg x y = sum_pair alg y x.
Proof.
  destruct alg.
  - apply add_from_zero_comm.
  - destruct x as [sx|sx| |sx mx ex], y as [sy|sy| |sy my ey];
      try apply compensated_finite_comm;
      try (destruct sx); try (destruct sy); try reflexivity;
      unfold sum_pair; rewrite !zero_add; cbn [Float.is_zero];
      rewrite ?add_zero_r, ?add_zero_l, ?sub_self; reflexivity.
Qed.

End FloatFacts.

(* ===================================================================== *)
(** * Running the monad *)
(* ===================================================================== *)

Ltac run :=
  unfold try_except, bind, ret, raise, raise_exc,
    logger_info, logger_warning, logger_error, logger_log, logging; cbn.

#[local] Arguments Float.add : simpl never.
#[local] Arguments Float.sub : simpl never.
#[local] Arguments Float.mul : simpl never.
#[local] Arguments Float.div : simpl never.
#[local] Arguments Float.eqb : simpl never.
#[local] Arguments Float.leb : simpl never.
#[local] Arguments Float.of_int : simpl never.

Section OperationFacts.

Variable rt : runtime.

Lemma py_float_spec s w :
  py_float rt s w = match float_of_str rt s with
                    | Some x => (Return x, w)
                    | None => (Raise could_not_convert, w)
                    end.
Proof. unfold py_float. destruct (float_of_str rt s); reflexivity. Qed.

Lemma parse_all_cons a args :
  parse_all rt (a :: args)
  = match float_of_str rt a with
    | Some x => match parse_all rt args with
                | Some xs => Some (x :: xs)
                | None => None
                end
    | None => None
    end.
Proof.
  unfold parse_all. cbn. destruct (float_of_str rt a); cbn; [|reflexivity].
  destruct (mapM (float_of_str rt) args); reflexivity.
Qed.

(** Drawing the items of [map(float, args)] one by one in a loop comes to
    parsing all the tokens first: nothing observable happens in between. *)
Lemma list_parse args w :
  list_ (map (py_float rt) args) w
  = match parse_all rt args with
    | Some xs => (Return xs, w)
    | None => (Raise could_not_convert, w)
    end.
Proof.
  revert w. induction args as [|a args IH]; intros w; [reflexivity|].
  rewrite parse_all_cons. cbn. unfold bind at 1. rewrite py_float_spec.
  destruct (float_of_str rt a); [|reflexivity].
  unfold bind at 1. rewrite IH. destruct (parse_all rt args); reflexivity.
Qed.

Lemma sum_left_to_right_parse args f w :
  sum_left_to_right f (map (py_float rt) args) w
  = match parse_all rt args with
    | Some xs => sum_left_to_right f (map ret xs) w
    | None => (Raise could_not_convert, w)
    end.
Proof.
  revert f w. induction args as [|a args IH]; intros f w; [reflexivity|].
  rewrite parse_all_cons. cbn. unfold bind at 1. rewrite py_float_spec.
  destruct (float_of_str rt a); [|reflexivity].
  rewrite IH. destruct (parse_all rt args); reflexivity.
Qed.

Lemma sum_left_to_right_returns xs f w :
  sum_left_to_right f (map ret xs) w = (Return (fold_left Float.add xs f), w).
Proof.
  revert f. induction xs as [|x xs IH]; intros f; cbn; [reflexivity|].
  unfold bind, ret at 1. apply IH.
Qed.

Lemma sum_compensated_parse args f c w :
  sum_compensated f c (map (py_float rt) args) w
  = match parse_all rt args with
    | Some xs => sum_compensated f c (map ret xs) w
    | None => (Raise could_not_convert, w)
    end.
Proof.
  revert f c w. induction args as [|a args IH]; intros f c w; [reflexivity|].
  rewrite parse_all_cons. cbn. unfold bind at 1. rewrite py_float_spec.
  destruct (float_of_str rt a); [|reflexivity].
  rewrite IH. destruct (parse_all rt args); reflexivity.
Qed.

Lemma sum_compensated_returns xs f c w :
  exists r, sum_compensated f c (map ret xs) w = (Return r, w).
Proof.
  revert f c. induction xs as [|x xs IH]; intros f c; cbn.
  - eexists. reflexivity.
  - unfold bind, ret at 1. apply IH.
Qed.

Lemma multiply_loop_parse args r w :
  multiply_loop r (map (py_float rt) args) w
  = match parse_all rt args with
    | Some xs => (Return (fold_left Float.mul xs r), w)
    | None => (Raise could_not_convert, w)
    end.
Proof.
  revert r w. induction args as [|a args IH]; intros r w; [reflexivity|].
  rewrite parse_all_cons. cbn. unfold bind at 1. rewrite py_float_spec.
  destruct (float_of_str rt a); [|reflexivity].
  rewrite IH. destruct (parse_all rt args); reflexivity.
Qed.

(** [sum] over an iterator of parsed tokens. *)
Lemma sum_parse args w :
  sum rt (map (py_float rt) args) w
  = match parse_all rt args with
    | Some xs => sum rt (map ret xs) w
    | None => (Raise could_not_convert, w)
    end.
Proof.
  destruct args as [|a args]; [reflexivity|].
  rewrite parse_all_cons. unfold sum. cbn [map]. unfold bind at 1.
  rewrite py_float_spec.
  destruct (float_of_str rt a) as [x|]; [|reflexivity].
  unfold bind at 1.
  destruct (float_sum rt).
  - rewrite sum_left_to_right_parse.
    destruct (parse_all rt args) as [xs|]; reflexivity.
  - rewrite sum_compensated_parse.
    destruct (parse_all rt args) as [xs|]; reflexivity.
Qed.

(** [sum] over floats never raises, leaves the world as it is, and gives
    a float as soon as there is one item. *)
Lemma sum_returns x xs w :
  exists r, sum rt (map ret (x :: xs)) w = (Return (Float r), w).
Proof.
  unfold sum. cbn [map]. unfold bind at 1, ret at 1.
  unfold bind. destruct (float_sum rt).
  - rewrite sum_left_to_right_returns. eexists. reflexivity.
  - destruct (sum_compensated_returns xs
                (Float.add (Float.of_int 0) x) Float.zero w) as [r ->].
    eexists. reflexivity.
Qed.

(* ------------------------------------------------------------------- *)
(** ** The division loop *)
(* ------------------------------------------------------------------- *)

Lemma truediv_nonzero x y w :
  Float.is_zero y = false ->
  truediv x y w = (Return (Float.div x y), mk_world (logged w) (S (truedivs w))).
Proof. intros Hy. unfold truediv. rewrite FloatFacts.eqb_zero', Hy. reflexivity. Qed.

Lemma divide_loop_zero divisors result w :
  Exists (fun d => Float.eqb d Float.zero = true) divisors ->
  divide_loop result divisors w
  = (Return (inl division_by_zero),
     mk_world (logged w ++ [(ERROR, Msg_division_by_zero)])
       (truedivs w + length (divisors_before_zero divisors))).
Proof.
  revert result w.
  induction divisors as [|d divisors IH]; intros result w Hz.
  - inversion Hz.
  - cbn [divide_loop divisors_before_zero].
    rewrite FloatFacts.eqb_zero.
    destruct (Float.is_zero d) eqn:Hd.
    + run. rewrite Nat.add_0_r. reflexivity.
    + unfold bind at 1. rewrite truediv_nonzero by exact Hd.
      rewrite IH.
      * cbn. repeat f_equal. lia.
      * inversion Hz as [? ? Hd'|]; subst; [|assumption].
        rewrite FloatFacts.eqb_zero' in Hd'. congruence.
Qed.

Lemma divide_loop_nonzero divisors result w :
  Forall (fun d => Float.eqb d Float.zero = false) divisors ->
  divide_loop result divisors w
  = (Return (inr (left_fold_quotient result divisors)),
     mk_world (logged w) (truedivs w + length divisors)).
Proof.
  revert result w.
  induction divisors as [|d divisors IH]; intros result w Hnz.
  - cbn. unfold ret. rewrite Nat.add_0_r. destruct w; reflexivity.
  - inversion Hnz as [|? ? Hd Hnz']; subst.
    rewrite FloatFacts.eqb_zero' in Hd.
    cbn [divide_loop]. rewrite FloatFacts.eqb_zero, Hd.
    unfold bind at 1. rewrite truediv_nonzero by exact Hd.
    rewrite IH by assumption. cbn. repeat f_equal. lia.
Qed.

Lemma parse_all_length args xs :
  parse_all rt args = Some xs -> length xs = length args.
Proof. intros H. symmetry. exact (length_mapM _ _ _ H). Qed.

(** What [DivideCommand.execute] does once its arguments are known to
    parse. *)
Lemma divide_parsed args first divisors w :
  parse_all rt args = Some (first :: divisors) ->
  DivideCommand_execute rt args w
  = match divisors with
    | [] => (Return requires_two_numbers, w)
    | _ =>
        match divide_loop first divisors w with
        | (Return (inl v), w') => (Return v, w')
        | (Return (inr result), w') =>
            (Return (VFloat result),
             logging w' INFO (Msg_executed "DivideCommand" args (VFloat result)))
        | (Raise e, w') =>
            if issubclass (exc_class e) ValueError
            then (Return invalid_input,
                  logging w' ERROR (Msg_invalid_input "division" args))
            else (Raise e, w')
        end
    end.
Proof.
  intros Hp. unfold DivideCommand_execute.
  destruct args as [|a args]; [discriminate|].
  unfold try_except, bind at 1. rewrite list_parse, Hp.
  destruct divisors as [|d divisors]; [reflexivity|].
  cbn [length Nat.eqb]. unfold bind at 1. cbn [getitem lookup list_lookup ret drop].
  unfold bind at 1, ret at 1.
  destruct (divide_loop first (d :: divisors) w) as [[[v|result]|e] w'].
  - reflexivity.
  - reflexivity.
  - cbn [select_handler]. destruct (issubclass (exc_class e) ValueError); reflexivity.
Qed.

Lemma divide_parse_failure args w :
  parse_all rt args = None ->
  DivideCommand_execute rt args w
  = (Return invalid_input, logging w ERROR (Msg_invalid_input "division" args)).
Proof.
  intros Hp. destruct args as [|a args]; [discriminate|].
  unfold DivideCommand_execute, try_except, bind at 1.
  rewrite list_parse, Hp. reflexivity.
Qed.

End OperationFacts.

(* ===================================================================== *)
(** * The built-in operations *)
(* ===================================================================== *)

Section Operations.

Variable rt : runtime.

(** C3. With no argument, [Add] returns 0, [Multiply] returns 1, and
    [Subtract] and [Divide] each return the invalid-input error; nothing
    is logged. *)
Theorem zero_arguments (w : world) :
  AddCommand_execute rt [] w = (Return (VInt 0), w) /\
  MultiplyCommand_execute rt [] w = (Return (VInt 1), w) /\
  SubtractCommand_execute rt [] w = (Return invalid_input, w) /\
  DivideCommand_execute rt [] w = (Return invalid_input, w).
Proof. repeat split. Qed.

(** C5. [Subtract] with exactly one argument that parses as a number
    returns that number: the rest is empty, its sum is the int 0, and
    [x - 0] is [x] for every float, the zeros, the infinities and NaN
    included. *)
Theorem subtract_single (a : string) (x : float) (w : world) :
  float_of_str rt a = Some x ->
  SubtractCommand_execute rt [a] w
  = (Return (VFloat x),
     logging w INFO (Msg_executed "SubtractCommand" [a] (VFloat x))).
Proof.
  intros Ha. unfold SubtractCommand_execute, try_except.
  unfold bind at 1. rewrite list_parse, parse_all_cons, Ha.
  cbn. unfold float_sub. rewrite FloatFacts.sub_zero. reflexivity.
Qed.

(** C2, amended. [Divide] with exactly one argument that parses as a
    number returns the "Division requires at least two numbers" error,
    which is not the invalid-input message; nothing is logged. *)
Theorem divide_single (a : string) (x : float) (w : world) :
  float_of_str rt a = Some x ->
  DivideCommand_execute rt [a] w = (Return requires_two_numbers, w) /\
  requires_two_numbers <> invalid_input.
Proof.
  intros Ha. split; [|discriminate].
  rewrite (divide_parsed rt [a] x []); [reflexivity|].
  rewrite parse_all_cons, Ha. reflexivity.
Qed.

(** C1, amended. When every token of a [Divide] call parses and some
    divisor (2nd..Nth value) equals 0.0, the result is the "Division by
    zero" error wherever the zero stands; the scan stops at the first zero
    divisor: exactly the divisors in front of it have been divided by, and
    the only log record is the division-by-zero error. *)
Theorem divide_by_zero (args : list string) (first : float)
    (divisors : list float) (w : world) :
  parse_all rt args = Some (first :: divisors) ->
  Exists (fun d => Float.eqb d Float.zero = true) divisors ->
  DivideCommand_execute rt args w
  = (Return division_by_zero,
     mk_world (logged w ++ [(ERROR, Msg_division_by_zero)])
       (truedivs w + length (divisors_before_zero divisors))).
Proof.
  intros Hp Hz. rewrite (divide_parsed rt args first divisors w Hp).
  rewrite (divide_loop_zero divisors first w Hz).
  destruct divisors; [inversion Hz|reflexivity].
Qed.

(** C4. [Divide] with two or more arguments that all parse and no zero
    divisor returns the left-fold quotient: the first value divided by
    each following value in order. *)
Theorem divide_left_fold (args : list string) (first : float)
    (divisors : list float) (w : world) :
  parse_all rt args = Some (first :: divisors) ->
  divisors <> [] ->
  Forall (fun d => Float.eqb d Float.zero = false) divisors ->
  DivideCommand_execute rt args w
  = (Return (VFloat (left_fold_quotient first divisors)),
     mk_world
       (logged w ++
          [(INFO, Msg_executed "DivideCommand" args
                    (VFloat (left_fold_quotient first divisors)))])
       (truedivs w + length divisors)).
Proof.
  intros Hp Hne Hnz. rewrite (divide_parsed rt args first divisors w Hp).
  rewrite (divide_loop_nonzero divisors first w Hnz).
  destruct divisors; [congruence|reflexivity].
Qed.

(** C10. In [Divide] an unparseable token wins over every other error
    condition: whenever some token fails to parse, the result is the
    invalid-input error, also for a single token and also when a zero
    divisor stands in front of it, and no division is performed. *)
Theorem divide_unparsable (args : list string) (w : world) :
  Exists (fun s => float_of_str rt s = None) args ->
  DivideCommand_execute rt args w
  = (Return invalid_input,
     logging w ERROR (Msg_invalid_input "division" args)).
Proof.
  intros Hex. apply mapM_None_2 in Hex. fold (parse_all rt args) in Hex.
  unfold DivideCommand_execute, try_except.
  destruct args as [|a args]; [discriminate|].
  unfold bind at 1. rewrite list_parse, Hex. reflexivity.
Qed.

End Operations.

Section Addition.

Variable rt : runtime.

Lemma sum_two x y w :
  sum rt (map ret [x; y]) w = (Return (Float (sum_pair (float_sum rt) x y)), w).
Proof. unfold sum, sum_pair. destruct (float_sum rt); reflexivity. Qed.

Lemma add_two a b x y w :
  float_of_str rt a = Some x -> float_of_str rt b = Some y ->
  AddCommand_execute rt [a; b] w
  = (Return (VFloat (sum_pair (float_sum rt) x y)),
     logging w INFO
       (Msg_executed "AddCommand" [a; b] (VFloat (sum_pair (float_sum rt) x y)))).
Proof.
  intros Ha Hb. unfold AddCommand_execute, try_except.
  unfold bind at 1. rewrite sum_parse, !parse_all_cons, Ha, Hb.
  change (parse_all rt []) with (Some (@nil float)). cbv iota beta.
  rewrite sum_two. reflexivity.
Qed.

(** C6, amended. For tokens [a] and [b] that each parse as a number,
    [Add(a, b)] and [Add(b, a)] are both NaN or both not; when they are not
    NaN they are the same float and [Add(a, b) == Add(b, a)] holds.  The two
    log records differ only in the order of the arguments they quote. *)
Theorem add_commutative (a b : string) (x y : float) (w : world) :
  float_of_str rt a = Some x ->
  float_of_str rt b = Some y ->
  exists r1 r2 : float,
    AddCommand_execute rt [a; b] w
    = (Return (VFloat r1),
       logging w INFO (Msg_executed "AddCommand" [a; b] (VFloat r1))) /\
    AddCommand_execute rt [b; a] w
    = (Return (VFloat r2),
       logging w INFO (Msg_executed "AddCommand" [b; a] (VFloat r2))) /\
    Float.is_nan r1 = Float.is_nan r2 /\
    (Float.is_nan r1 = false -> r1 = r2 /\ Float.eqb r1 r2 = true).
Proof.
  intros Ha Hb.
  exists (sum_pair (float_sum rt) x y), (sum_pair (float_sum rt) y x).
  split; [apply add_two; assumption|].
  split; [apply add_two; assumption|].
  rewrite (FloatFacts.sum_pair_comm (float_sum rt) y x).
  split; [reflexivity|]. intros Hn. split; [reflexivity|].
  rewrite FloatFacts.eqb_refl, Hn. reflexivity.
Qed.

End Addition.

Section Totality.

Variable rt : runtime.

Lemma sum_floats_returns xs w :
  exists n, sum rt (map ret xs) w = (Return n, w).
Proof.
  destruct xs as [|x xs].
  - eexists. reflexivity.
  - destruct (sum_returns rt x xs w) as [r Hr]. eauto.
Qed.

Lemma divide_loop_returns divisors result w :
  exists r w', divide_loop result divisors w = (Return r, w') /\
               (r = inl division_by_zero \/ exists q, r = inr q).
Proof.
  revert result w. induction divisors as [|d divisors IH]; intros result w.
  - cbn. unfold ret. eauto 6.
  - cbn [divide_loop]. rewrite FloatFacts.eqb_zero.
    destruct (Float.is_zero d) eqn:Hd.
    + run. eauto 6.
    + unfold bind at 1. rewrite truediv_nonzero by exact Hd. apply IH.
Qed.

Lemma add_never_raises : never_raises rt (AddCommand_execute rt).
Proof.
  intros args w. unfold AddCommand_execute, try_except.
  destruct args as [|a args].
  - cbn. eexists _, _. repeat split. discriminate.
  - unfold bind at 1. rewrite sum_parse.
    destruct (parse_all rt (a :: args)) as [xs|] eqn:Hp.
    + destruct xs as [|x xs];
        [apply parse_all_length in Hp; discriminate|].
      destruct (sum_returns rt x xs w) as [r ->].
      run. eexists _, _. repeat split. discriminate.
    + run. eexists _, _. split; [reflexivity|]. split; [|reflexivity].
      left. reflexivity.
Qed.

Lemma subtract_never_raises : never_raises rt (SubtractCommand_execute rt).
Proof.
  intros args w. unfold SubtractCommand_execute, try_except.
  destruct args as [|a args].
  - cbn. eexists _, _. split; [reflexivity|]. split; [left; reflexivity|discriminate].
  - unfold bind at 1. rewrite list_parse.
    destruct (parse_all rt (a :: args)) as [xs|] eqn:Hp.
    + destruct xs as [|x xs];
        [apply parse_all_length in Hp; discriminate|].
      cbn [getitem lookup list_lookup drop]. unfold bind at 1, ret at 1.
      unfold bind at 1. rewrite drop_0.
      destruct (sum_floats_returns xs w) as [n ->].
      run. eexists _, _. repeat split. discriminate.
    + run. eexists _, _. split; [reflexivity|]. split; [|reflexivity].
      left. reflexivity.
Qed.

Lemma multiply_never_raises : never_raises rt (MultiplyCommand_execute rt).
Proof.
  intros args w. unfold MultiplyCommand_execute, try_except.
  destruct args as [|a args].
  - cbn. eexists _, _. repeat split. discriminate.
  - unfold bind at 1. rewrite multiply_loop_parse.
    destruct (parse_all rt (a :: args)) as [xs|] eqn:Hp.
    + run. eexists _, _. repeat split. discriminate.
    + run. eexists _, _. split; [reflexivity|]. split; [|reflexivity].
      left. reflexivity.
Qed.

Lemma divide_never_raises : never_raises rt (DivideCommand_execute rt).
Proof.
  intros args w.
  destruct (parse_all rt args) as [xs|] eqn:Hp.
  - destruct xs as [|first divisors].
    + destruct args; [|apply parse_all_length in Hp; discriminate].
      cbn. eexists _, _. split; [reflexivity|]. split; [left; reflexivity|discriminate].
    + rewrite (divide_parsed rt args first divisors w Hp).
      destruct divisors as [|d divisors].
      * eexists _, _. split; [reflexivity|].
        split; [right; right; reflexivity|discriminate].
      * destruct (divide_loop_returns (d :: divisors) first w)
          as (r & w' & -> & [->|[q ->]]).
        -- eexists _, _. split; [reflexivity|].
           split; [right; left; reflexivity|discriminate].
        -- eexists _, _. repeat split. discriminate.
  - rewrite (divide_parse_failure rt args w Hp).
    eexists _, _. split; [reflexivity|]. split; [left|]; reflexivity.
Qed.

(** C9. Each of the four built-in operations' [execute] is total over
    lists of string arguments: whatever the arguments and the world, it
    returns, with a number or one of the error strings, and raises
    nothing; a token that fails to parse raises a [ValueError] that the
    operation turns into the invalid-input error. *)
Theorem builtins_never_raise :
  never_raises rt (AddCommand_execute rt) /\
  never_raises rt (SubtractCommand_execute rt) /\
  never_raises rt (MultiplyCommand_execute rt) /\
  never_raises rt (DivideCommand_execute rt).
Proof.
  auto using add_never_raises, subtract_never_raises,
    multiply_never_raises, divide_never_raises.
Qed.

End Totality.

(* ===================================================================== *)
(** * The plugin loader *)
(* ===================================================================== *)

Section LoaderFacts.

Variable import_module : string -> exception + module.

(** The loop over the sub-units does what the scan describes. *)
Lemma load_modules_scan names stop this w :
  PluginLoader.load_modules import_module names stop (this, w)
  = let r := scan_units import_module (PluginLoader.plugin_package this) names stop in
    (match failure r with
     | None => Return tt
     | Some e => Raise e
     end,
     (loaded this r, report_all w (reported r))).
Proof.
  revert this w. induction names as [|name names IH]; intros this w.
  - cbn. destruct this, stop; reflexivity.
  - cbn [PluginLoader.load_modules scan_units].
    unfold bind at 1. cbn [PluginLoader.get_plugin_package].
    unfold bind at 1, PluginLoader.importlib_import_module.
    destruct (import_module _) as [e|m].
    + cbn. destruct this; reflexivity.
    + unfold ret at 1. unfold bind at 1.
      destruct (mod_COMMANDS m) as [[d [e|]]|].
      * cbn. reflexivity.
      * unfold bind at 1. cbn [PluginLoader.commands_update fst snd].
        cbv beta iota. unfold lift_world. run.
        rewrite IH. cbn. reflexivity.
      * unfold ret at 1. rewrite IH. reflexivity.
Qed.

Lemma load_plugins_body_scan this w :
  PluginLoader.load_plugins_body import_module (this, w)
  = let r := scan_source import_module (PluginLoader.plugin_package this) in
    (match failure r with
     | None => Return tt
     | Some e => Raise e
     end,
     (loaded this r, report_all w (reported r))).
Proof.
  unfold PluginLoader.load_plugins_body, scan_source.
  unfold bind at 1. cbn [PluginLoader.get_plugin_package].
  unfold bind at 1, PluginLoader.importlib_import_module.
  destruct (import_module _) as [e|package].
  - cbn. destruct this; reflexivity.
  - unfold ret at 1. unfold bind at 1, PluginLoader.get_path.
    destruct (mod_path package) as [e|[names stop]].
    + cbn. destruct this; reflexivity.
    + unfold ret at 1. cbn [fst snd]. apply load_modules_scan.
Qed.

(** The loader as a whole: the scan, then the conclusion drawn from the
    failure that ended it. *)
Lemma load_plugins_scan this w :
  PluginLoader.load_plugins import_module (this, w)
  = let r := scan_source import_module (PluginLoader.plugin_package this) in
    let (o, w') := conclude (failure r) (PluginLoader.plugin_package this)
                     (report_all w (reported r)) in
    (o, (loaded this r, w')).
Proof.
  unfold PluginLoader.load_plugins, try_except.
  rewrite load_plugins_body_scan. cbv zeta.
  destruct (failure (scan_source import_module (PluginLoader.plugin_package this)))
    as [e|]; [|reflexivity].
  cbn [select_handler conclude].
  destruct (issubclass (exc_class e) ModuleNotFoundError); [reflexivity|].
  destruct (issubclass (exc_class e) Exception); reflexivity.
Qed.

Lemma conclude_raises failed package_name w e w' :
  conclude failed package_name w = (Raise e, w') ->
  failed = Some e /\ issubclass (exc_class e) Exception = false /\ w' = w.
Proof.
  unfold conclude. destruct failed as [e0|]; [|discriminate].
  destruct (issubclass (exc_class e0) ModuleNotFoundError); [discriminate|].
  destruct (issubclass (exc_class e0) Exception) eqn:He; [discriminate|].
  intros [= <- <-]. auto.
Qed.

Lemma not_found_is_exception c :
  issubclass c ModuleNotFoundError = true -> issubclass c Exception = true.
Proof. destruct c; vm_compute; congruence. Qed.

(** C8, amended. No exception deriving from [Exception] escapes the plugin
    loader, and whatever ends the pass over the source, what was merged
    until then is kept.  If the plugin source is not found, which shows as a
    [ModuleNotFoundError] from the import of the package, a warning naming
    it is logged and nothing was merged.  A failure during discovery or
    import that is an [Exception] other than [ModuleNotFoundError] is
    logged as an error carrying it, and the loader returns.  An exception
    outside [Exception] leaves the loader.  (A [ModuleNotFoundError] from
    the import of a sub-unit is not spoken of.) *)
Theorem load_plugins_contains_exceptions (this : PluginLoader.self) (w : world) :
  let package_name := PluginLoader.plugin_package this in
  let r := scan_source import_module package_name in
  let s := PluginLoader.load_plugins import_module (this, w) in
  s.2.1 = loaded this r /\
  match s.1 with
  | Return _ => True
  | Raise e => issubclass (exc_class e) Exception = false
  end /\
  (forall e,
     import_module package_name = inl e ->
     issubclass (exc_class e) ModuleNotFoundError = true ->
     s = (Return tt,
          (this, logging w WARNING (Msg_package_not_found package_name)))) /\
  (forall e,
     failure r = Some e ->
     issubclass (exc_class e) ModuleNotFoundError = false ->
     issubclass (exc_class e) Exception = true ->
     s.1 = Return tt /\
     s.2.2 = logging (report_all w (reported r)) ERROR (Msg_error_loading e)) /\
  (forall e,
     failure r = Some e ->
     issubclass (exc_class e) Exception = false ->
     s.1 = Raise e /\ s.2.2 = report_all w (reported r)) /\
  (failure r = None ->
   s.1 = Return tt /\ s.2.2 = report_all w (reported r)).
Proof.
  cbv zeta. rewrite load_plugins_scan. cbv zeta.
  split; [destruct (conclude _ _ _); reflexivity|].
  split.
  { destruct (conclude _ _ _) as [[u|e] w'] eqn:Hc; cbn; [exact I|].
    apply conclude_raises in Hc. tauto. }
  split.
  { intros e Himp He. unfold scan_source. rewrite Himp.
    cbn [failure reported conclude report_all fold_left]. rewrite He.
    unfold loaded. cbn [merged merge_all fold_left]. destruct this; reflexivity. }
  split.
  { intros e Hf Hn He. rewrite Hf. cbn [conclude]. rewrite Hn, He.
    split; reflexivity. }
  split.
  { intros e Hf He. rewrite Hf. cbn [conclude].
    destruct (issubclass (exc_class e) ModuleNotFoundError) eqn:Hn.
    - apply not_found_is_exception in Hn. congruence.
    - rewrite He. split; reflexivity. }
  intros Hf. rewrite Hf. split; reflexivity.
Qed.

End LoaderFacts.

(* ===================================================================== *)
(** * The registry *)
(* ===================================================================== *)

Section Frame.

Lemma keeps_ret {A} (a : A) : keeps_commands (ret a).
Proof. intros p w. reflexivity. Qed.

Lemma keeps_bind {A B} (m : eff (process * world) A) (k : A -> eff (process * world) B) :
  keeps_commands m -> (forall a, keeps_commands (k a)) -> keeps_commands (bind m k).
Proof.
  intros Hm Hk p w. unfold bind. specialize (Hm p w).
  destruct (m (p, w)) as [[a|e] [p' w']]; cbn in *.
  - rewrite (Hk a p' w'). exact Hm.
  - exact Hm.
Qed.

Lemma keeps_try_except {A} (body : eff (process * world) A) handlers :
  keeps_commands body ->
  Forall (fun ch => forall e, keeps_commands (ch.2 e)) handlers ->
  keeps_commands (try_except body handlers).
Proof.
  intros Hb Hh p w. unfold try_except. specialize (Hb p w).
  destruct (body (p, w)) as [[a|e] [p' w']]; cbn in *; [exact Hb|].
  induction Hh as [|[c h] handlers Hch Hh IH]; cbn; [exact Hb|].
  destruct (issubclass (exc_class e) c); [|exact IH].
  cbn in Hch. rewrite (Hch e p' w'). exact Hb.
Qed.

Lemma keeps_lift_world {A} (m : py A) : keeps_commands (lift_world m).
Proof. intros p w. unfold lift_world. destruct (m w). reflexivity. Qed.

Lemma keeps_print objects : keeps_commands (print objects).
Proof. intros p w. reflexivity. Qed.

Lemma keeps_input prompt ev : keeps_commands (input prompt ev).
Proof. intros p w. destruct ev as [[s|]|]; reflexivity. Qed.

Lemma keeps_get_commands : keeps_commands get_commands.
Proof. intros p w. reflexivity. Qed.

End Frame.

Create HintDb frame.

#[local] Hint Resolve keeps_ret keeps_lift_world keeps_print keeps_input
  keeps_get_commands : frame.

Section RegistryFacts.

Variable rt : runtime.
Variable import_module : string -> exception + module.

Lemma keeps_repl_iteration ev : keeps_commands (repl_iteration rt ev).
Proof.
  unfold repl_iteration. apply keeps_try_except.
  - apply keeps_bind; [auto with frame|]. intros line.
    destruct (Str.split (Str.strip line)) as [|command_name args];
      [auto with frame|].
    destruct (String.eqb command_name "exit");
      [repeat (apply keeps_bind; [auto with frame|intros ?]); auto with frame|].
    destruct (String.eqb command_name "menu");
      [repeat (apply keeps_bind; [auto with frame|intros ?]); auto with frame|].
    apply keeps_bind; [auto with frame|]. intros cmds.
    destruct (cmds !! command_name);
      repeat (apply keeps_bind; [auto with frame|intros ?]); auto with frame.
  - constructor; [|constructor]. intros e. cbn [snd].
    repeat (apply keeps_bind; [auto with frame|intros ?]); auto with frame.
Qed.

Lemma keeps_repl_loop stdin : keeps_commands (repl_loop rt stdin).
Proof.
  induction stdin as [|ev stdin IH]; cbn [repl_loop].
  - apply keeps_bind; [apply keeps_repl_iteration|auto with frame].
  - apply keeps_bind; [apply keeps_repl_iteration|].
    intros [|]; auto with frame.
Qed.

Lemma keeps_repl stdin : keeps_commands (repl rt stdin).
Proof.
  unfold repl. apply keeps_bind; [auto with frame|].
  intros _. apply keeps_repl_loop.
Qed.

Lemma builtin_commands_lookup name :
  builtin_commands !! name
  = if String.eqb name "add" then Some AddCommand
    else if String.eqb name "subtract" then Some SubtractCommand
    else if String.eqb name "multiply" then Some MultiplyCommand
    else if String.eqb name "divide" then Some DivideCommand
    else None.
Proof.
  unfold builtin_commands.
  destruct (String.eqb_spec name "add") as [->|Hadd]; [reflexivity|].
  destruct (String.eqb_spec name "subtract") as [->|Hsub]; [reflexivity|].
  destruct (String.eqb_spec name "multiply") as [->|Hmul]; [reflexivity|].
  destruct (String.eqb_spec name "divide") as [->|Hdiv]; [reflexivity|].
  rewrite !lookup_insert_ne by congruence. apply lookup_empty.
Qed.

Lemma dict_update_lookup (d other : gmap string Command) name :
  dict_update d other !! name
  = match other !! name with
    | Some c => Some c
    | None => d !! name
    end.
Proof.
  unfold dict_update. rewrite lookup_union.
  destruct (other !! name), (d !! name); reflexivity.
Qed.

Lemma module_init_scan w :
  module_init import_module w
  = let r := scan_source import_module "plugins" in
    let (o, w') := conclude (failure r) "plugins"
                     (report_all (logging w INFO Msg_started) (reported r)) in
    match o with
    | Return _ => (Return (dict_update builtin_commands (merge_all ∅ (merged r))), w')
    | Raise e => (Raise e, w')
    end.
Proof.
  unfold module_init, load_dynamic_commands, PluginLoader.init.
  unfold bind at 1. cbn [logger_info logger_log]. unfold bind at 1, bind at 1.
  rewrite load_plugins_scan. cbn [PluginLoader.plugin_package]. cbv zeta.
  fold (logging w INFO Msg_started).
  destruct (conclude _ _ _) as [[u|e] w']; reflexivity.
Qed.

(** C7. The registry starts from the four built-in operations under the
    names add, subtract, multiply and divide; the plugin loader's
    accumulated mapping is then merged into it, a plugin entry replacing a
    built-in of the same name; and from then on the loop reads the
    registry without ever changing it, whatever is typed. *)
Theorem registry_built_then_read_only :
  (forall name,
     builtin_commands !! name
     = if String.eqb name "add" then Some AddCommand
       else if String.eqb name "subtract" then Some SubtractCommand
       else if String.eqb name "multiply" then Some MultiplyCommand
       else if String.eqb name "divide" then Some DivideCommand
       else None) /\
  (forall w,
     module_init import_module w
     = let r := scan_source import_module "plugins" in
       let (o, w') := conclude (failure r) "plugins"
                        (report_all (logging w INFO Msg_started) (reported r)) in
       match o with
       | Return _ =>
           (Return (dict_update builtin_commands (merge_all ∅ (merged r))), w')
       | Raise e => (Raise e, w')
       end) /\
  (forall d other name,
     dict_update d other !! name
     = match other !! name with
       | Some c => Some c
       | None => d !! name
       end) /\
  (forall stdin p w, commands (repl rt stdin (p, w)).2.1 = commands p).
Proof.
  split; [exact builtin_commands_lookup|].
  split; [exact module_init_scan|].
  split; [exact dict_update_lookup|].
  exact keeps_repl.
Qed.

End RegistryFacts.

(* ===================================================================== *)
(** * The scenarios of the test suite *)
(* ===================================================================== *)

Example test_calculator_commands :
  (AddCommand_execute cpython312 ["5"; "10"] initial_world).1 = Return (literal "15.0") /\
  (SubtractCommand_execute cpython312 ["10"; "3"] initial_world).1 = Return (literal "7.0") /\
  (MultiplyCommand_execute cpython312 ["2"; "4"] initial_world).1 = Return (literal "8.0") /\
  (DivideCommand_execute cpython312 ["8"; "2"] initial_world).1 = Return (literal "4.0").
Proof. repeat split. Qed.

Example test_division_by_zero :
  (DivideCommand_execute cpython312 ["10"; "0"] initial_world).1
  = Return (VStr "Error: Division by zero").
Proof. reflexivity. Qed.

Example test_invalid_inputs :
  (AddCommand_execute cpython312 ["a"; "b"] initial_world).1 = Return invalid_input /\
  (SubtractCommand_execute cpython312 ["x"; "5"] initial_world).1 = Return invalid_input /\
  (MultiplyCommand_execute cpython312 ["@"; "#"] initial_world).1 = Return invalid_input /\
  (DivideCommand_execute cpython312 ["eight"; "two"] initial_world).1 = Return invalid_input.
Proof. repeat split. Qed.

(** A session without a plugin package: excessive spacing, the menu, an
    unknown command and [exit]. *)
Example test_repl_session :
  let s := repl cpython312
             [Line "  add    4   5  "; Line ""; Line "menu"; Line "Add 1"; Line "exit"]
             (mk_process builtin_commands [], initial_world) in
  s.1 = Return tt /\
  stdout s.2.1
  = [Print [VStr "Welcome to the Command Pattern Calculator! Type 'menu' to see available commands, or 'exit' to quit."];
     Prompt "Enter command: "; Print [VStr "Result:"; literal "9.0"];
     Prompt "Enter command: ";
     Prompt "Enter command: ";
     Print [VStr "Available commands:"; VStr "add, divide, multiply, subtract"];
     Prompt "Enter command: ";
     Print [VStr "Invalid command. Type 'menu' to see available commands."];
     Prompt "Enter command: "; Print [VStr "Exiting calculator. Goodbye!"]].
Proof. vm_compute. split; reflexivity. Qed.

(** The sums of three floats on which the two summation algorithms differ:
    [0.1 + 0.2 + 0.3] is [0.6000000000000001] from left to right and [0.6]
    with compensation. *)
Example sum_algorithms_differ :
  (AddCommand_execute cpython311 ["0.1"; "0.2"; "0.3"] initial_world).1
  = Return (literal "0.6000000000000001") /\
  (AddCommand_execute cpython312 ["0.1"; "0.2"; "0.3"] initial_world).1
  = Return (literal "0.6").
Proof. split; reflexivity. Qed.

(* ===================================================================== *)
(** * The theorems at concrete calls *)
(* ===================================================================== *)

(** [subtract 7] is 7.0. *)
Lemma subtract_single_witness :
  float_of_str cpython312 "7" = Some (S754_finite false 7881299347898368 (-50)) /\
  SubtractCommand_execute cpython312 ["7"] initial_world
  = (Return (VFloat (S754_finite false 7881299347898368 (-50))),
     logging initial_world INFO
       (Msg_executed "SubtractCommand" ["7"]
          (VFloat (S754_finite false 7881299347898368 (-50))))).
Proof.
  split; [reflexivity|].
  apply (subtract_single cpython312 "7" _ initial_world). reflexivity.
Defined.

(** [divide 10] lacks a divisor. *)
Lemma divide_single_witness :
  float_of_str cpython312 "10" = Some (S754_finite false 5629499534213120 (-49)) /\
  DivideCommand_execute cpython312 ["10"] initial_world
  = (Return requires_two_numbers, initial_world) /\
  requires_two_numbers <> invalid_input.
Proof.
  split; [reflexivity|].
  apply (divide_single cpython312 "10"
           (S754_finite false 5629499534213120 (-49)) initial_world).
  reflexivity.
Defined.

(** [divide 8 2 0 4 0]: one division, by 2, then the first zero ends the
    scan. *)
Lemma divide_by_zero_witness :
  DivideCommand_execute cpython312 ["8"; "2"; "0"; "4"; "0"] initial_world
  = (Return division_by_zero, mk_world [(ERROR, Msg_division_by_zero)] 1).
Proof.
  apply (divide_by_zero cpython312 ["8"; "2"; "0"; "4"; "0"]
           (S754_finite false 4503599627370496 (-49))
           [S754_finite false 4503599627370496 (-51); S754_zero false;
            S754_finite false 4503599627370496 (-50); S754_zero false]
           initial_world).
  - reflexivity.
  - apply Exists_cons_tl, Exists_cons_hd. reflexivity.
Defined.

(** [divide 8 2] is 4.0. *)
Lemma divide_left_fold_witness :
  DivideCommand_execute cpython312 ["8"; "2"] initial_world
  = (Return (VFloat (S754_finite false 4503599627370496 (-50))),
     mk_world
       [(INFO, Msg_executed "DivideCommand" ["8"; "2"]
                 (VFloat (S754_finite false 4503599627370496 (-50))))]
       1).
Proof.
  apply (divide_left_fold cpython312 ["8"; "2"]
           (S754_finite false 4503599627370496 (-49))
           [S754_finite false 4503599627370496 (-51)] initial_world).
  - reflexivity.
  - discriminate.
  - repeat constructor.
Defined.

(** [divide 8 0 x] and [divide x]: the unparseable token decides. *)
Lemma divide_unparsable_witness :
  DivideCommand_execute cpython312 ["8"; "0"; "x"] initial_world
  = (Return invalid_input,
     logging initial_world ERROR (Msg_invalid_input "division" ["8"; "0"; "x"])) /\
  DivideCommand_execute cpython312 ["x"] initial_world
  = (Return invalid_input,
     logging initial_world ERROR (Msg_invalid_input "division" ["x"])).
Proof.
  split.
  - apply (divide_unparsable cpython312 ["8"; "0"; "x"] initial_world).
    apply Exists_cons_tl, Exists_cons_tl, Exists_cons_hd. reflexivity.
  - apply (divide_unparsable cpython312 ["x"] initial_world).
    apply Exists_cons_hd. reflexivity.
Defined.

(** [add 5 10] and [add 10 5] are both 15.0. *)
Lemma add_commutative_witness :
  exists r1 r2 : float,
    AddCommand_execute cpython312 ["5"; "10"] initial_world
    = (Return (VFloat r1),
       logging initial_world INFO (Msg_executed "AddCommand" ["5"; "10"] (VFloat r1))) /\
    AddCommand_execute cpython312 ["10"; "5"] initial_world
    = (Return (VFloat r2),
       logging initial_world INFO (Msg_executed "AddCommand" ["10"; "5"] (VFloat r2))) /\
    Float.is_nan r1 = Float.is_nan r2 /\
    (Float.is_nan r1 = false -> r1 = r2 /\ Float.eqb r1 r2 = true).
Proof.
  apply (add_commutative cpython312 "5" "10"
           (S754_finite false 5629499534213120 (-50))
           (S754_finite false 5629499534213120 (-49)) initial_world);
    reflexivity.
Defined.

(** A package whose second sub-unit fails on an [ImportError]: the first
    sub-unit is merged and reported, the error is logged, the third
    sub-unit is not reached, and the loader returns. *)
Lemma load_plugins_contains_exceptions_witness :
  let s := PluginLoader.load_plugins broken_plugin
             (PluginLoader.mk_self "plugins" ∅, initial_world) in
  s.1 = Return tt /\
  s.2.2
  = mk_world
      [(INFO, Msg_loaded_plugin "a");
       (ERROR, Msg_error_loading
                 (mk_exception ImportError "cannot import name 'sqrt' from 'maths'"))]
      0.
Proof.
  pose proof (load_plugins_contains_exceptions broken_plugin
                (PluginLoader.mk_self "plugins" ∅) initial_world) as H.
  cbv zeta in H. destruct H as (_ & _ & _ & H & _).
  apply (H (mk_exception ImportError "cannot import name 'sqrt' from 'maths'"));
    reflexivity.
Defined.

(* ===================================================================== *)
(** * Where the specification says more than the program does *)
(* ===================================================================== *)

(** C1 as stated fails: in [divide 8 0 x] the first token parses and the
    second is exactly 0.0, yet the result is the invalid-input error, since
    every token is parsed before the scan for a zero divisor starts. *)
Lemma divide_zero_then_unparsable :
  float_of_str cpython312 "8" = Some (S754_finite false 4503599627370496 (-49)) /\
  float_of_str cpython312 "0" = Some (S754_zero false) /\
  Float.eqb (S754_zero false) Float.zero = true /\
  (DivideCommand_execute cpython312 ["8"; "0"; "x"] initial_world).1
  = Return invalid_input /\
  invalid_input <> division_by_zero.
Proof. repeat split. discriminate. Qed.

(** C2 as stated fails: [divide x] has exactly one argument, and the result
    is the invalid-input error. *)
Lemma divide_single_unparsable :
  (DivideCommand_execute cpython312 ["x"] initial_world).1 = Return invalid_input /\
  invalid_input <> requires_two_numbers.
Proof. split; [reflexivity|discriminate]. Qed.

(** C6 as stated fails: [inf] and [-inf] each parse as a number, their sum
    is NaN in either order, and a NaN is not equal to a NaN. *)
Lemma add_opposite_infinities_differ :
  float_of_str cpython312 "inf" = Some (S754_infinity false) /\
  float_of_str cpython312 "-inf" = Some (S754_infinity true) /\
  (AddCommand_execute cpython312 ["inf"; "-inf"] initial_world).1
  = Return (VFloat Float.nan) /\
  (AddCommand_execute cpython312 ["-inf"; "inf"] initial_world).1
  = Return (VFloat Float.nan) /\
  Float.eqb Float.nan Float.nan = false.
Proof. repeat split. Qed.

(** C8 as stated fails: a sub-unit that exits while it is imported raises
    [SystemExit], which neither [except] clause handles; it leaves the
    loader, after the first sub-unit was merged and reported. *)
Lemma load_plugins_lets_system_exit_escape :
  let s := PluginLoader.load_plugins exiting_plugin
             (PluginLoader.mk_self "plugins" ∅, initial_world) in
  s.1 = Raise (mk_exception SystemExit "") /\
  PluginLoader.commands s.2.1 !! "square" = Some MultiplyCommand /\
  logged s.2.2 = [(INFO, Msg_loaded_plugin "a")].
Proof. repeat split. Qed.

(** Beside C8: when the package is found and a sub-unit's own import of a
    module that is not installed raises [ModuleNotFoundError], the first
    [except] clause takes it, and the log says that the package was not
    found. *)
Example missing_dependency_logged_as_missing_package :
  let s := PluginLoader.load_plugins missing_dependency
             (PluginLoader.mk_self "plugins" ∅, initial_world) in
  is_inr (missing_dependency "plugins") = true /\
  s.1 = Return tt /\
  logged s.2.2
  = [(INFO, Msg_loaded_plugin "a"); (WARNING, Msg_package_not_found "plugins")].
Proof. repeat split. Qed.

(* ===================================================================== *)
(** * Facts about binary64 multiplication *)
(* ===================================================================== *)

Module FloatMulFacts.

Lemma mul_comm (x y : float) : Float.mul x y = Float.mul y x.
Proof.
  unfold Float.mul.
  destruct x as [sx|sx| |sx mx ex], y as [sy|sy| |sy my ey]; cbn [SFmul];
    rewrite ?(xorb_comm sy sx); try reflexivity.
  rewrite (Pos.mul_comm my mx), (Z.add_comm ey ex). reflexivity.
Qed.

Lemma one_eq : Float.one = S754_finite false 4503599627370496 (-52).
Proof. reflexivity. Qed.

Lemma shift_back (m : positive) :
  SpecFloat.iter_pos shr_1 52 (Build_shr_record (Zpos (Pos.mul 4503599627370496 m)) false false)
  = Build_shr_record (Zpos m) false false.
Proof. reflexivity. Qed.

Lemma digits_shifted (m : positive) :
  Zpos (digits2_pos (Pos.mul 4503599627370496 m)) = (Zpos (digits2_pos m) + 52)%Z.
Proof.
  change (Pos.mul 4503599627370496 m) with (Pos.iter xO m 52).
  cbn [Pos.iter digits2_pos]. lia.
Qed.

Lemma shr_fexp_canonical (m : positive) (e : Z) :
  fexp Float.prec Float.emax (Z.pos (digits2_pos m) + e) = e ->
  shr_fexp Float.prec Float.emax (Z.pos m) e loc_Exact
  = (Build_shr_record (Z.pos m) false false, e).
Proof.
  intros Hc. unfold shr_fexp. cbn [Zdigits2]. rewrite Hc, Z.sub_diag. reflexivity.
Qed.

Lemma shr_fexp_shifted (m : positive) (e : Z) :
  fexp Float.prec Float.emax (Z.pos (digits2_pos m) + e) = e ->
  shr_fexp Float.prec Float.emax (Z.pos (Pos.mul 4503599627370496 m)) (-52 + e) loc_Exact
  = (Build_shr_record (Z.pos m) false false, e).
Proof.
  intros Hc. unfold shr_fexp. cbn [Zdigits2]. rewrite digits_shifted.
  replace (Z.pos (digits2_pos m) + 52 + (-52 + e))%Z
    with (Z.pos (digits2_pos m) + e)%Z by lia.
  rewrite Hc. replace (e - (-52 + e))%Z with 52%Z by lia.
  cbn [shr_record_of_loc shr]. rewrite shift_back. f_equal. lia.
Qed.

(** [1.0 * x] is [x] for every binary64 value. *)
Lemma mul_one_l (x : float) :
  valid_binary Float.prec Float.emax x = true -> Float.mul Float.one x = x.
Proof.
  destruct x as [[]|[]| |s m e]; try reflexivity.
  unfold valid_binary, bounded, canonical_mantissa.
  intros Hv. apply andb_prop in Hv as [Hc Hb]. apply Z.eqb_eq in Hc.
  rewrite one_eq. unfold Float.mul. cbn [SFmul xorb].
  unfold binary_round_aux. rewrite (shr_fexp_shifted m e Hc).
  cbn [shr_m loc_of_shr_record round_nearest_even].
  rewrite (shr_fexp_canonical m e Hc). cbn [shr_m]. rewrite Hb. reflexivity.
Qed.

End FloatMulFacts.

(* ===================================================================== *)
(** * More on the built-in operations *)
(* ===================================================================== *)

Section Arithmetic.

Variable rt : runtime.

Lemma sum_compensated_pure xs f c w :
  sum_compensated f c (map ret xs) w = (Return (compensated_fold f c xs), w).
Proof.
  revert f c. induction xs as [|x xs IH]; intros f c; cbn; [reflexivity|].
  unfold bind, ret at 1. apply IH.
Qed.

Lemma sum_pure xs w :
  sum rt (map ret xs) w = (Return (sum_floats (float_sum rt) xs), w).
Proof.
  destruct xs as [|x xs]; [reflexivity|].
  unfold sum, sum_floats. cbn [map]. unfold bind at 1, ret at 1. unfold bind.
  destruct (float_sum rt).
  - rewrite sum_left_to_right_returns. reflexivity.
  - rewrite sum_compensated_pure. reflexivity.
Qed.

Lemma add_parsed a args xs w :
  parse_all rt (a :: args) = Some xs ->
  AddCommand_execute rt (a :: args) w
  = (Return (value_of_number (sum_floats (float_sum rt) xs)),
     logging w INFO
       (Msg_executed "AddCommand" (a :: args)
          (value_of_number (sum_floats (float_sum rt) xs)))).
Proof.
  intros Hp. unfold AddCommand_execute, try_except.
  unfold bind at 1. rewrite sum_parse, Hp, sum_pure. reflexivity.
Qed.

Lemma subtract_parsed args first others w :
  parse_all rt args = Some (first :: others) ->
  SubtractCommand_execute rt args w
  = (Return (VFloat (float_sub first (sum_floats (float_sum rt) others))),
     logging w INFO
       (Msg_executed "SubtractCommand" args
          (VFloat (float_sub first (sum_floats (float_sum rt) others))))).
Proof.
  intros Hp. unfold SubtractCommand_execute, try_except.
  destruct args as [|a args]; [discriminate|].
  unfold bind at 1. rewrite list_parse, Hp.
  cbn [getitem lookup list_lookup drop]. unfold bind at 1, ret at 1.
  unfold bind at 1. rewrite drop_0, sum_pure. reflexivity.
Qed.

Lemma multiply_parsed a args xs w :
  parse_all rt (a :: args) = Some xs ->
  MultiplyCommand_execute rt (a :: args) w
  = (Return (VFloat (product xs)),
     logging w INFO (Msg_executed "MultiplyCommand" (a :: args) (VFloat (product xs)))).
Proof.
  intros Hp. unfold MultiplyCommand_execute, try_except.
  unfold bind at 1. rewrite multiply_loop_parse, Hp. reflexivity.
Qed.

Lemma add_parse_failure args w :
  parse_all rt args = None ->
  AddCommand_execute rt args w
  = (Return invalid_input, logging w ERROR (Msg_invalid_input "addition" args)).
Proof.
  intros Hp. destruct args as [|a args]; [discriminate|].
  unfold AddCommand_execute, try_except, bind at 1.
  rewrite sum_parse, Hp. reflexivity.
Qed.

Lemma subtract_parse_failure args w :
  parse_all rt args = None ->
  SubtractCommand_execute rt args w
  = (Return invalid_input, logging w ERROR (Msg_invalid_input "subtraction" args)).
Proof.
  intros Hp. destruct args as [|a args]; [discriminate|].
  unfold SubtractCommand_execute, try_except, bind at 1.
  rewrite list_parse, Hp. reflexivity.
Qed.

Lemma multiply_parse_failure args w :
  parse_all rt args = None ->
  MultiplyCommand_execute rt args w
  = (Return invalid_input, logging w ERROR (Msg_invalid_input "multiplication" args)).
Proof.
  intros Hp. destruct args as [|a args]; [discriminate|].
  unfold MultiplyCommand_execute, try_except, bind at 1.
  rewrite multiply_loop_parse, Hp. reflexivity.
Qed.

(** X1. [Add] of one or more tokens that all parse returns their sum as
    the built-in [sum] computes it from the int 0, and logs that one
    execution. *)
Theorem add_sum (args : list string) (xs : list float) (w : world) :
  args <> [] ->
  parse_all rt args = Some xs ->
  AddCommand_execute rt args w
  = (Return (value_of_number (sum_floats (float_sum rt) xs)),
     logging w INFO
       (Msg_executed "AddCommand" args
          (value_of_number (sum_floats (float_sum rt) xs)))).
Proof.
  intros Hne Hp. destruct args as [|a args]; [congruence|].
  apply add_parsed. exact Hp.
Qed.

(** X2. [Add] of a single token that parses returns its value, except that
    a negative zero comes back as positive zero: the sum starts from the
    int 0, and [0.0 + -0.0] is [0.0]. *)
Theorem add_single (a : string) (x : float) (w : world) :
  float_of_str rt a = Some x ->
  (AddCommand_execute rt [a] w).1
  = Return (VFloat (if Float.is_zero x then Float.zero else x)).
Proof.
  intros Ha.
  rewrite (add_parsed a [] [x] w) by (rewrite parse_all_cons, Ha; reflexivity).
  cbn [fst sum_floats value_of_number]. rewrite <- FloatFacts.zero_add.
  destruct (float_sum rt); [reflexivity|].
  cbn [compensated_fold Float.is_zero Float.zero negb andb]. reflexivity.
Qed.

(** X3. [Subtract] of one or more tokens that all parse returns the first
    value minus the [sum] of the others, and logs that one execution. *)
Theorem subtract_difference (args : list string) (first : float)
    (others : list float) (w : world) :
  parse_all rt args = Some (first :: others) ->
  SubtractCommand_execute rt args w
  = (Return (VFloat (float_sub first (sum_floats (float_sum rt) others))),
     logging w INFO
       (Msg_executed "SubtractCommand" args
          (VFloat (float_sub first (sum_floats (float_sum rt) others))))).
Proof. apply subtract_parsed. Qed.

(** X4. [Multiply] of one or more tokens that all parse returns their
    product, taken from 1.0 from left to right, and logs that one
    execution. *)
Theorem multiply_product (args : list string) (xs : list float) (w : world) :
  args <> [] ->
  parse_all rt args = Some xs ->
  MultiplyCommand_execute rt args w
  = (Return (VFloat (product xs)),
     logging w INFO (Msg_executed "MultiplyCommand" args (VFloat (product xs)))).
Proof.
  intros Hne Hp. destruct args as [|a args]; [congruence|].
  apply multiply_parsed. exact Hp.
Qed.

(** X5. In [Add], [Subtract] and [Multiply] a token that fails to parse
    makes the whole call return the invalid-input error, wherever it
    stands, and the call logs one error naming the operation and quoting
    the arguments. *)
Theorem unparsable_token_is_invalid_input (args : list string) (w : world) :
  Exists (fun s => float_of_str rt s = None) args ->
  AddCommand_execute rt args w
  = (Return invalid_input, logging w ERROR (Msg_invalid_input "addition" args)) /\
  SubtractCommand_execute rt args w
  = (Return invalid_input, logging w ERROR (Msg_invalid_input "subtraction" args)) /\
  MultiplyCommand_execute rt args w
  = (Return invalid_input, logging w ERROR (Msg_invalid_input "multiplication" args)).
Proof.
  intros Hex. apply mapM_None_2 in Hex. fold (parse_all rt args) in Hex.
  auto using add_parse_failure, subtract_parse_failure, multiply_parse_failure.
Qed.

(** X6. [Multiply] of a single token that parses to a binary64 value
    returns that value: [1.0 * x] is [x], the zeros, the infinities and NaN
    included. *)
Theorem multiply_single (a : string) (x : float) (w : world) :
  float_of_str rt a = Some x ->
  valid_binary Float.prec Float.emax x = true ->
  (MultiplyCommand_execute rt [a] w).1 = Return (VFloat x).
Proof.
  intros Ha Hv.
  rewrite (multiply_parsed a [] [x] w) by (rewrite parse_all_cons, Ha; reflexivity).
  cbn [fst product fold_left]. rewrite (FloatMulFacts.mul_one_l x Hv). reflexivity.
Qed.

(** X7. For tokens [a] and [b] that parse to binary64 values,
    [Multiply(a, b)] and [Multiply(b, a)] are both NaN or both not; when
    they are not NaN they are the same float, the product of the two
    values, and [Multiply(a, b) == Multiply(b, a)] holds. *)
Theorem multiply_commutative (a b : string) (x y : float) (w : world) :
  float_of_str rt a = Some x ->
  float_of_str rt b = Some y ->
  valid_binary Float.prec Float.emax x = true ->
  valid_binary Float.prec Float.emax y = true ->
  exists r1 r2 : float,
    (MultiplyCommand_execute rt [a; b] w).1 = Return (VFloat r1) /\
    (MultiplyCommand_execute rt [b; a] w).1 = Return (VFloat r2) /\
    Float.is_nan r1 = Float.is_nan r2 /\
    (Float.is_nan r1 = false ->
     r1 = Float.mul x y /\ r1 = r2 /\ Float.eqb r1 r2 = true).
Proof.
  intros Ha Hb Hx Hy. exists (Float.mul x y), (Float.mul y x).
  rewrite (multiply_parsed a [b] [x; y] w)
    by (rewrite !parse_all_cons, Ha, Hb; reflexivity).
  rewrite (multiply_parsed b [a] [y; x] w)
    by (rewrite !parse_all_cons, Ha, Hb; reflexivity).
  cbn [fst product fold_left].
  rewrite (FloatMulFacts.mul_one_l x Hx), (FloatMulFacts.mul_one_l y Hy).
  rewrite (FloatMulFacts.mul_comm y x).
  repeat split. rewrite FloatFacts.eqb_refl, H. reflexivity.
Qed.

Lemma divisors_before_zero_length divisors :
  length (divisors_before_zero divisors) <= length divisors.
Proof.
  induction divisors as [|d divisors IH]; cbn; [lia|].
  destruct (Float.is_zero d); cbn; lia.
Qed.

Lemma divide_loop_cases divisors result w :
  exists n, n <= length divisors /\
    (divide_loop result divisors w
     = (Return (inl division_by_zero),
        mk_world (logged w ++ [(ERROR, Msg_division_by_zero)]) (truedivs w + n))
     \/ exists q, divide_loop result divisors w
                  = (Return (inr q), mk_world (logged w) (truedivs w + n))).
Proof.
  destruct (decide (Exists (fun d => Float.eqb d Float.zero = true) divisors))
    as [Hz|Hnz].
  - exists (length (divisors_before_zero divisors)).
    split; [apply divisors_before_zero_length|].
    left. apply divide_loop_zero. exact Hz.
  - exists (length divisors). split; [lia|]. right. eexists.
    apply divide_loop_nonzero.
    apply Forall_forall. intros d Hd.
    destruct (Float.eqb d Float.zero) eqn:E; [|reflexivity].
    exfalso. apply Hnz. apply Exists_exists. eauto.
Qed.

Lemma add_discipline args w :
  logged_at_most_one w (AddCommand_execute rt args w).2 /\
  truedivs (AddCommand_execute rt args w).2 = truedivs w.
Proof.
  destruct args as [|a args]; [split; [left|]; reflexivity|].
  destruct (parse_all rt (a :: args)) as [xs|] eqn:Hp.
  - rewrite (add_parsed a args xs w Hp). split; [right; eexists|]; reflexivity.
  - rewrite (add_parse_failure _ w Hp). split; [right; eexists|]; reflexivity.
Qed.

Lemma subtract_discipline args w :
  logged_at_most_one w (SubtractCommand_execute rt args w).2 /\
  truedivs (SubtractCommand_execute rt args w).2 = truedivs w.
Proof.
  destruct args as [|a args]; [split; [left|]; reflexivity|].
  destruct (parse_all rt (a :: args)) as [[|first others]|] eqn:Hp.
  - apply parse_all_length in Hp. discriminate.
  - rewrite (subtract_parsed _ _ _ w Hp). split; [right; eexists|]; reflexivity.
  - rewrite (subtract_parse_failure _ w Hp). split; [right; eexists|]; reflexivity.
Qed.

Lemma multiply_discipline args w :
  logged_at_most_one w (MultiplyCommand_execute rt args w).2 /\
  truedivs (MultiplyCommand_execute rt args w).2 = truedivs w.
Proof.
  destruct args as [|a args]; [split; [left|]; reflexivity|].
  destruct (parse_all rt (a :: args)) as [xs|] eqn:Hp.
  - rewrite (multiply_parsed a args xs w Hp). split; [right; eexists|]; reflexivity.
  - rewrite (multiply_parse_failure _ w Hp). split; [right; eexists|]; reflexivity.
Qed.

Lemma divide_discipline args w :
  logged_at_most_one w (DivideCommand_execute rt args w).2 /\
  truedivs w <= truedivs (DivideCommand_execute rt args w).2
  <= truedivs w + (length args - 1).
Proof.
  destruct args as [|a args]; [split; [left; reflexivity|cbn; lia]|].
  destruct (parse_all rt (a :: args)) as [[|first others]|] eqn:Hp.
  - apply parse_all_length in Hp. discriminate.
  - rewrite (divide_parsed rt _ _ _ w Hp).
    apply parse_all_length in Hp. cbn [length] in Hp.
    destruct others as [|d others]; [split; [left; reflexivity|cbn; lia]|].
    destruct (divide_loop_cases (d :: others) first w) as (n & Hn & [->|[q ->]]);
      cbn [snd logging logged truedivs length] in *.
    + split; [right; eexists; reflexivity|lia].
    + split; [right; eexists; reflexivity|lia].
  - rewrite (divide_parse_failure rt _ w Hp).
    split; [right; eexists; reflexivity|cbn; lia].
Qed.

(** X8. Each call of a built-in operation adds at most one record to the
    log and removes none.  [Add], [Subtract] and [Multiply] perform no
    division; [Divide] performs at most one division per divisor. *)
Theorem builtins_log_at_most_once (args : list string) (w : world) :
  (logged_at_most_one w (AddCommand_execute rt args w).2 /\
   truedivs (AddCommand_execute rt args w).2 = truedivs w) /\
  (logged_at_most_one w (SubtractCommand_execute rt args w).2 /\
   truedivs (SubtractCommand_execute rt args w).2 = truedivs w) /\
  (logged_at_most_one w (MultiplyCommand_execute rt args w).2 /\
   truedivs (MultiplyCommand_execute rt args w).2 = truedivs w) /\
  (logged_at_most_one w (DivideCommand_execute rt args w).2 /\
   truedivs w <= truedivs (DivideCommand_execute rt args w).2
   <= truedivs w + (length args - 1)).
Proof.
  auto using add_discipline, subtract_discipline, multiply_discipline,
    divide_discipline.
Qed.

Lemma quotient_of_zero divisors first :
  Float.is_zero first = true ->
  Forall (fun d => Float.is_zero d = false /\ Float.is_nan d = false) divisors ->
  Float.is_zero (left_fold_quotient first divisors) = true.
Proof.
  revert first. induction divisors as [|d divisors IH]; intros first Hz Hd;
    [exact Hz|].
  inversion Hd as [|? ? [Hd1 Hd2] Hd']; subst.
  cbn [left_fold_quotient fold_left]. apply IH; [|exact Hd'].
  destruct first as [s| | |]; try discriminate.
  destruct d as [sd|sd| |sd md ed]; try discriminate; reflexivity.
Qed.

(** X9. A zero dividend is no error: [Divide] of a first value that is a
    zero by divisors that are neither zero nor NaN returns a zero. *)
Theorem divide_zero_dividend (args : list string) (first : float)
    (divisors : list float) (w : world) :
  parse_all rt args = Some (first :: divisors) ->
  divisors <> [] ->
  Float.is_zero first = true ->
  Forall (fun d => Float.is_zero d = false /\ Float.is_nan d = false) divisors ->
  exists z, Float.is_zero z = true /\
            (DivideCommand_execute rt args w).1 = Return (VFloat z).
Proof.
  intros Hp Hne Hz Hd. exists (left_fold_quotient first divisors).
  split; [apply quotient_of_zero; assumption|].
  rewrite (divide_parsed rt args first divisors w Hp).
  rewrite (divide_loop_nonzero divisors first w).
  - destruct divisors; [congruence|reflexivity].
  - eapply Forall_impl; [exact Hd|]. intros d [Hd1 _].
    rewrite FloatFacts.eqb_zero'. exact Hd1.
Qed.

End Arithmetic.

(* ===================================================================== *)
(** * Splitting a command line *)
(* ===================================================================== *)

Module StrFacts.

#[local] Open Scope list_scope.

(** Whether a text starts with a whitespace character is decided by its
    first bytes: a longer text starts with the same one. *)
Lemma space_width_app l t k :
  Str.space_width l = S k -> Str.space_width (l ++ t) = S k.
Proof.
  destruct l as [|c1 [|c2 [|c3 l]]]; cbn [Str.space_width app];
    try discriminate.
  - destruct (Str.ascii_space c1); [trivial|discriminate].
  - destruct (Str.ascii_space c1); [trivial|].
    destruct (Str.two_byte_space c1 c2); [trivial|discriminate].
  - trivial.
Qed.

Lemma rstrip_prefix s skip :
  exists t, s = Str.rstrip_from skip s ++ t.
Proof.
  revert skip. induction s as [|c s IH]; intros skip; [exists []; reflexivity|].
  cbn [Str.rstrip_from].
  assert (Hws : forall k, exists t,
            c :: s = match Str.rstrip_from k s with [] => [] | r => c :: r end ++ t).
  { intros k. destruct (IH k) as [t Ht].
    destruct (Str.rstrip_from k s) as [|c' r] eqn:E.
    - exists (c :: s). reflexivity.
    - exists t. cbn [app] in *. f_equal. exact Ht. }
  destruct skip as [|k]; [|apply Hws].
  destruct (Str.space_width (c :: s)) as [|k]; [|apply Hws].
  destruct (IH 0) as [t Ht]. exists t. cbn [app]. f_equal. exact Ht.
Qed.

(** Inside a whitespace character [rstrip] keeps all of its bytes or
    nothing. *)
Lemma rstrip_skip_length s k :
  Str.rstrip_from k s <> [] -> k < length (Str.rstrip_from k s).
Proof.
  revert s. induction k as [|k IH]; intros s Hne.
  - destruct (Str.rstrip_from 0 s); [congruence|cbn; lia].
  - destruct s as [|c s]; [cbn in Hne; congruence|].
    cbn [Str.rstrip_from] in *.
    destruct (Str.rstrip_from k s) as [|c' r] eqn:E; [congruence|].
    cbn [length]. specialize (IH s). rewrite E in IH. cbn [length] in IH.
    apply -> Nat.succ_lt_mono. apply IH. discriminate.
Qed.

(** The first whitespace character of a text is still its first when the
    text is cut behind it. *)
Lemma space_width_cut c s r t k :
  Str.space_width (c :: s) = S k -> s = r ++ t -> k <= length r ->
  Str.space_width (c :: r) = S k.
Proof.
  intros Hw -> Hk. revert Hw.
  destruct r as [|c2 [|c3 r]]; cbn [Str.space_width app length] in *.
  - destruct (Str.ascii_space c); [trivial|].
    destruct t as [|c2 [|c3 t]]; try discriminate.
    + destruct (Str.two_byte_space c c2); intros [= <-]; lia.
    + destruct (Str.two_byte_space c c2); [intros [= <-]; lia|].
      destruct (Str.three_byte_space c c2 c3); intros [= <-]; lia.
  - destruct (Str.ascii_space c); [trivial|].
    destruct (Str.two_byte_space c c2); [trivial|].
    destruct t as [|c3 t]; [discriminate|].
    destruct (Str.three_byte_space c c2 c3); intros [= <-]; lia.
  - trivial.
Qed.

Lemma flush_nil cur : Str.flush cur (Str.flush [] []) = Str.flush cur [].
Proof. reflexivity. Qed.

(** Splitting does not see what [rstrip] takes away. *)
Lemma split_from_rstrip s skip cur :
  Str.split_from skip cur (Str.rstrip_from skip s) = Str.split_from skip cur s.
Proof.
  revert skip cur. induction s as [|c s IH]; intros skip cur; [reflexivity|].
  assert (Hin : forall k cur',
            Str.split_from (S k) cur'
              (match Str.rstrip_from k s with [] => [] | r => c :: r end)
            = Str.split_from k cur' s).
  { intros k cur'. rewrite <- (IH k cur').
    destruct (Str.rstrip_from k s); reflexivity. }
  cbn [Str.rstrip_from].
  destruct skip as [|k]; [|apply Hin].
  destruct (Str.space_width (c :: s)) as [|k] eqn:Hw.
  - cbn [Str.split_from].
    destruct (Str.space_width (c :: Str.rstrip_from 0 s)) as [|k] eqn:Hw'.
    + rewrite Hw. apply IH.
    + destruct (rstrip_prefix s 0) as [t Ht].
      pose proof (space_width_app (c :: Str.rstrip_from 0 s) t k Hw') as Hw''.
      cbn [app] in Hw''. rewrite <- Ht in Hw''. congruence.
  - cbn [Str.split_from]. rewrite Hw, <- (IH k []).
    destruct (Str.rstrip_from k s) as [|c' r] eqn:E; [reflexivity|].
    destruct (rstrip_prefix s k) as [t Ht]. rewrite E in Ht.
    assert (Hk : k <= length (c' :: r)).
    { pose proof (rstrip_skip_length s k) as Hl. rewrite E in Hl.
      apply Nat.lt_le_incl, Hl. discriminate. }
    cbn [Str.split_from].
    rewrite (space_width_cut c s (c' :: r) t k Hw Ht Hk). reflexivity.
Qed.

(** Nor what [lstrip] takes away. *)
Lemma split_from_lstrip s skip :
  Str.split_from 0 [] (Str.lstrip_from skip s) = Str.split_from skip [] s.
Proof.
  revert skip. induction s as [|c s IH]; intros skip; [destruct skip; reflexivity|].
  cbn [Str.lstrip_from].
  destruct skip as [|k]; [|apply IH].
  destruct (Str.space_width (c :: s)) as [|k] eqn:Hw; [reflexivity|].
  cbn [Str.split_from]. rewrite Hw. apply IH.
Qed.

End StrFacts.

(** The [strip] in front of [split] changes nothing: a line and its
    stripped form split into the same tokens. *)
Lemma split_strip (s : string) : Str.split (Str.strip s) = Str.split s.
Proof.
  unfold Str.split, Str.strip. rewrite list_ascii_of_string_of_list_ascii.
  rewrite StrFacts.split_from_rstrip. apply StrFacts.split_from_lstrip.
Qed.



(* ===================================================================== *)
(** * The read-eval-print loop *)
(* ===================================================================== *)

Section Dispatch.

Variable rt : runtime.

(** One turn on a line of input, case by case. *)
Lemma repl_iteration_line line p w :
  repl_iteration rt (Some (Line line)) (p, w)
  = match Str.split line with
    | [] => (Return true, (prompted p, w))
    | command_name :: args =>
        if String.eqb command_name "exit" then
          (Return false,
           (printed (prompted p) [VStr goodbye], logging w INFO Msg_user_exited))
        else if String.eqb command_name "menu" then
          (Return true,
           (printed (prompted p)
              [VStr "Available commands:";
               VStr (Str.join ", " (menu_names (commands p)))], w))
        else
          match commands p !! command_name with
          | Some c =>
              match execute rt c args w with
              | (Return v, w') =>
                  (Return true, (printed (prompted p) [VStr "Result:"; v], w'))
              | (Raise e, w') =>
                  if issubclass (exc_class e) KeyboardInterrupt then
                    (Return false,
                     (printed (prompted p) [interrupted_goodbye],
                      logging w' INFO Msg_keyboard_interrupt))
                  else (Raise e, (prompted p, w'))
              end
          | None => (Return true, (printed (prompted p) [invalid_command], w))
          end
    end.
Proof.
  unfold repl_iteration, try_except. unfold bind at 1. cbn [input].
  rewrite split_strip.
  destruct (Str.split line) as [|command_name args]; [reflexivity|].
  destruct (String.eqb command_name "exit"); [reflexivity|].
  destruct (String.eqb command_name "menu"); [reflexivity|].
  unfold bind at 1. cbn [get_commands commands].
  destruct (commands p !! command_name) as [c|]; [|reflexivity].
  unfold bind at 1, lift_world.
  destruct (execute rt c args w) as [[v|e] w']; [reflexivity|].
  cbn [select_handler].
  destruct (issubclass (exc_class e) KeyboardInterrupt); reflexivity.
Qed.

Lemma repl_loop_line line rest p w :
  repl_loop rt (Line line :: rest) (p, w)
  = match repl_iteration rt (Some (Line line)) (p, w) with
    | (Return true, s) => repl_loop rt rest s
    | (Return false, s) => (Return tt, s)
    | (Raise e, s) => (Raise e, s)
    end.
Proof.
  cbn [repl_loop]. unfold bind at 1.
  destruct (repl_iteration rt (Some (Line line)) (p, w)) as [[[|]|e] s];
    reflexivity.
Qed.

#[local] Instance str_le_total : Total Str.le.
Proof. intros a b. apply String.leb_total. Qed.

Lemma menu_names_spec (cmds : gmap string Command) :
  Sorted Str.le (menu_names cmds) /\
  NoDup (menu_names cmds) /\
  (forall name, name ∈ menu_names cmds <-> is_Some (cmds !! name)).
Proof.
  unfold menu_names, Str.sorted.
  split; [apply Sorted_merge_sort; apply _|].
  split.
  - rewrite merge_sort_Permutation. apply NoDup_fst_map_to_list.
  - intros name. rewrite merge_sort_Permutation, list_elem_of_fmap. split.
    + intros ([k c] & -> & Hin). apply elem_of_map_to_list in Hin. eauto.
    + intros [c Hc]. exists (name, c). split; [reflexivity|].
      apply elem_of_map_to_list. exact Hc.
Qed.

(** X10. Two lines that split into the same tokens are handled alike:
    leading, trailing and repeated whitespace make no difference to what a
    turn of the loop does. *)
Theorem repl_ignores_spacing (line1 line2 : string) (p : process) (w : world) :
  Str.split line1 = Str.split line2 ->
  repl_iteration rt (Some (Line line1)) (p, w)
  = repl_iteration rt (Some (Line line2)) (p, w).
Proof. intros H. rewrite !repl_iteration_line, H. reflexivity. Qed.

(** X11. A line without any token only costs a prompt: the loop goes on
    with the rest of the input, and nothing is printed or logged. *)
Theorem repl_blank_line (line : string) (rest : list stdin_event)
    (p : process) (w : world) :
  Str.split line = [] ->
  repl_loop rt (Line line :: rest) (p, w) = repl_loop rt rest (prompted p, w).
Proof. intros H. rewrite repl_loop_line, repl_iteration_line, H. reflexivity. Qed.

(** X12. A line whose first token is [exit] ends the loop, whatever follows
    on the line, whatever is registered under that name and whatever input
    is left: the farewell is printed, the exit is logged, and the rest of
    the input is not read. *)
Theorem repl_exit (line : string) (args : list string) (rest : list stdin_event)
    (p : process) (w : world) :
  Str.split line = "exit" :: args ->
  repl_loop rt (Line line :: rest) (p, w)
  = (Return tt,
     (printed (prompted p) [VStr goodbye], logging w INFO Msg_user_exited)).
Proof. intros H. rewrite repl_loop_line, repl_iteration_line, H. reflexivity. Qed.

(** X13. A line whose first token is [menu] prints the registered names,
    whatever is registered under that name: the names are in ascending
    order, none is repeated, and they are exactly the keys of the
    registry.  The loop then goes on. *)
Theorem repl_menu (line : string) (args : list string) (rest : list stdin_event)
    (p : process) (w : world) :
  Str.split line = "menu" :: args ->
  repl_loop rt (Line line :: rest) (p, w)
  = repl_loop rt rest
      (printed (prompted p)
         [VStr "Available commands:";
          VStr (Str.join ", " (menu_names (commands p)))], w) /\
  Sorted Str.le (menu_names (commands p)) /\
  NoDup (menu_names (commands p)) /\
  (forall name, name ∈ menu_names (commands p) <-> is_Some (commands p !! name)).
Proof.
  intros H. split; [|apply menu_names_spec].
  rewrite repl_loop_line, repl_iteration_line, H. reflexivity.
Qed.

(** X14. A first token that is neither reserved nor a key of the registry
    is answered with the invalid-command message; nothing is logged and
    the loop goes on.  The lookup is exact, so a name in another letter
    case is such a token. *)
Theorem repl_unknown_command (line command_name : string) (args : list string)
    (rest : list stdin_event) (p : process) (w : world) :
  Str.split line = command_name :: args ->
  command_name <> "exit" ->
  command_name <> "menu" ->
  commands p !! command_name = None ->
  repl_loop rt (Line line :: rest) (p, w)
  = repl_loop rt rest (printed (prompted p) [invalid_command], w).
Proof.
  intros H Hexit Hmenu Hnone.
  apply String.eqb_neq in Hexit, Hmenu.
  rewrite repl_loop_line, repl_iteration_line, H, Hexit, Hmenu, Hnone.
  reflexivity.
Qed.

(** X15. A first token that is a key of the registry runs that entry's
    [execute] on the remaining tokens; when it returns, the result is
    printed after ["Result:"] and the loop goes on in the world the call
    left. *)
Theorem repl_known_command (line command_name : string) (args : list string)
    (rest : list stdin_event) (p : process) (w w' : world) (c : Command)
    (v : value) :
  Str.split line = command_name :: args ->
  command_name <> "exit" ->
  command_name <> "menu" ->
  commands p !! command_name = Some c ->
  execute rt c args w = (Return v, w') ->
  repl_loop rt (Line line :: rest) (p, w)
  = repl_loop rt rest (printed (prompted p) [VStr "Result:"; v], w').
Proof.
  intros H Hexit Hmenu Hc Hv.
  apply String.eqb_neq in Hexit, Hmenu.
  rewrite repl_loop_line, repl_iteration_line, H, Hexit, Hmenu, Hc, Hv.
  reflexivity.
Qed.

(** X16. An exception a registered command raises is not turned into a
    message: unless it is a [KeyboardInterrupt], which ends the loop with
    the farewell, it leaves the loop, and the rest of the input is not
    read. *)
Theorem repl_command_raises (line command_name : string) (args : list string)
    (rest : list stdin_event) (p : process) (w w' : world) (c : Command)
    (e : exception) :
  Str.split line = command_name :: args ->
  command_name <> "exit" ->
  command_name <> "menu" ->
  commands p !! command_name = Some c ->
  execute rt c args w = (Raise e, w') ->
  repl_loop rt (Line line :: rest) (p, w)
  = if issubclass (exc_class e) KeyboardInterrupt
    then (Return tt,
          (printed (prompted p) [interrupted_goodbye],
           logging w' INFO Msg_keyboard_interrupt))
    else (Raise e, (prompted p, w')).
Proof.
  intros H Hexit Hmenu Hc He.
  apply String.eqb_neq in Hexit, Hmenu.
  rewrite repl_loop_line, repl_iteration_line, H, Hexit, Hmenu, Hc, He.
  destruct (issubclass (exc_class e) KeyboardInterrupt); reflexivity.
Qed.

(** X17. An interrupt at the prompt ends the loop like [exit]: the farewell
    is printed on a new line, the interrupt is logged, nothing is raised
    and the rest of the input is not read. *)
Theorem repl_interrupt (rest : list stdin_event) (p : process) (w : world) :
  repl_loop rt (CtrlC :: rest) (p, w)
  = (Return tt,
     (printed (prompted p) [interrupted_goodbye],
      logging w INFO Msg_keyboard_interrupt)).
Proof. reflexivity. Qed.

Lemma builtin_returns c args w :
  is_builtin c -> exists v w', execute rt c args w = (Return v, w').
Proof.
  destruct c; cbn [is_builtin execute]; intros Hb; [| | | |contradiction].
  - destruct (add_never_raises rt args w) as (v & w' & H & _). eauto.
  - destruct (subtract_never_raises rt args w) as (v & w' & H & _). eauto.
  - destruct (multiply_never_raises rt args w) as (v & w' & H & _). eauto.
  - destruct (divide_never_raises rt args w) as (v & w' & H & _). eauto.
Qed.

Lemma repl_loop_builtin stdin p w :
  (forall name c, commands p !! name = Some c -> is_builtin c) ->
  (repl_loop rt stdin (p, w)).1
  = if existsb ends_session stdin
    then Return tt
    else Raise (mk_exception EOFError "EOF when reading a line").
Proof.
  revert p w. induction stdin as [|[line|] stdin IH]; intros p w Hb.
  - reflexivity.
  - rewrite repl_loop_line, repl_iteration_line.
    cbn [existsb ends_session].
    destruct (Str.split line) as [|command_name args].
    + cbn [orb]. apply IH. exact Hb.
    + destruct (String.eqb command_name "exit"); [reflexivity|].
      cbn [orb].
      destruct (String.eqb command_name "menu"); [apply IH; exact Hb|].
      destruct (commands p !! command_name) as [c|] eqn:Hc; [|apply IH; exact Hb].
      destruct (builtin_returns c args w (Hb _ _ Hc)) as (v & w' & ->).
      apply IH. exact Hb.
  - reflexivity.
Qed.

(** X18. Over a registry of built-in operations the loop raises nothing
    but [EOFError], and exactly when the input ends before an [exit] line
    or an interrupt; otherwise it returns. *)
Theorem repl_builtin_session (stdin : list stdin_event) (p : process) (w : world) :
  (forall name c, commands p !! name = Some c -> is_builtin c) ->
  (repl rt stdin (p, w)).1
  = if existsb ends_session stdin
    then Return tt
    else Raise (mk_exception EOFError "EOF when reading a line").
Proof.
  intros Hb. unfold repl, bind. cbn [print].
  apply (repl_loop_builtin stdin _ w). exact Hb.
Qed.

End Dispatch.

(* ===================================================================== *)
(** * More on the loader and the registry *)
(* ===================================================================== *)

Section Loading.

Variable import_module : string -> exception + module.

Lemma merge_all_app acc ds1 ds2 :
  merge_all acc (ds1 ++ ds2) = merge_all (merge_all acc ds1) ds2.
Proof. apply fold_left_app. Qed.

Lemma merge_all_unbound acc ds name :
  Forall (fun d : gmap string Command => d !! name = None) ds ->
  merge_all acc ds !! name = acc !! name.
Proof.
  revert acc. induction ds as [|d ds IH]; intros acc Hds; [reflexivity|].
  inversion Hds as [|? ? Hd Hds']; subst.
  cbn [merge_all fold_left]. fold (merge_all (dict_update acc d) ds).
  rewrite IH by exact Hds'. rewrite dict_update_lookup, Hd. reflexivity.
Qed.

Lemma merge_all_keeps acc ds name :
  is_Some (acc !! name) -> is_Some (merge_all acc ds !! name).
Proof.
  revert acc. induction ds as [|d ds IH]; intros acc Hacc; [exact Hacc|].
  cbn [merge_all fold_left]. apply IH.
  rewrite dict_update_lookup. destruct (d !! name); eauto.
Qed.

Lemma scan_units_stops package_name pre bad post stop e :
  import_module (package_name +:+ "." +:+ bad) = inl e ->
  scan_units import_module package_name (pre ++ bad :: post) stop
  = scan_units import_module package_name (pre ++ [bad]) None.
Proof.
  intros Hbad. induction pre as [|name pre IH]; cbn [app scan_units].
  - rewrite Hbad. reflexivity.
  - destruct (import_module (package_name +:+ "." +:+ name)) as [e'|m];
      [reflexivity|].
    destruct (mod_COMMANDS m) as [[d [e'|]]|]; [reflexivity| |exact IH].
    rewrite IH. reflexivity.
Qed.

(** X19. The loop over the sub-units ends at the first one whose import
    fails: the names after it are neither imported nor merged, so what the
    loader is left with does not depend on them. *)
Theorem load_modules_stops_at_failure (pre post : list string) (bad : string)
    (stop : option exception) (e : exception)
    (this : PluginLoader.self) (w : world) :
  import_module (PluginLoader.plugin_package this +:+ "." +:+ bad) = inl e ->
  PluginLoader.load_modules import_module (pre ++ bad :: post) stop (this, w)
  = PluginLoader.load_modules import_module (pre ++ [bad]) None (this, w).
Proof.
  intros Hbad. rewrite !load_modules_scan. cbv zeta.
  rewrite (scan_units_stops _ pre bad post stop e Hbad). reflexivity.
Qed.

(** X20. When several sub-units export the same name, the one merged last
    decides: the loader holds the entry of the last merged mapping that
    binds the name. *)
Theorem load_plugins_last_binding_wins (this : PluginLoader.self) (w : world)
    (ds1 ds2 : list (gmap string Command)) (d : gmap string Command)
    (name : string) (c : Command) :
  merged (scan_source import_module (PluginLoader.plugin_package this))
  = (ds1 ++ d :: ds2)%list ->
  d !! name = Some c ->
  Forall (fun d' : gmap string Command => d' !! name = None) ds2 ->
  PluginLoader.commands (PluginLoader.load_plugins import_module (this, w)).2.1
  !! name = Some c.
Proof.
  intros Hm Hd Hds2. rewrite load_plugins_scan. cbv zeta.
  destruct (conclude _ _ _) as [o w']. cbn [snd fst loaded PluginLoader.commands].
  rewrite Hm, merge_all_app. cbn [merge_all fold_left].
  fold (merge_all (dict_update (merge_all (PluginLoader.commands this) ds1) d) ds2).
  rewrite (merge_all_unbound _ ds2 name Hds2), dict_update_lookup, Hd.
  reflexivity.
Qed.

(** X21. Without a plugin package the calculator starts with exactly the
    four built-in operations: the import of [plugins] raises
    [ModuleNotFoundError], the loader logs one warning, and the registry is
    the built-in one. *)
Theorem module_init_without_plugins (e : exception) (w : world) :
  import_module "plugins" = inl e ->
  issubclass (exc_class e) ModuleNotFoundError = true ->
  module_init import_module w
  = (Return builtin_commands,
     logging (logging w INFO Msg_started) WARNING (Msg_package_not_found "plugins")).
Proof.
  intros Himp He. rewrite module_init_scan. unfold scan_source.
  rewrite Himp. cbn [failure merged reported conclude report_all fold_left merge_all].
  rewrite He. unfold dict_update. rewrite (left_id ∅ (∪)). reflexivity.
Qed.

(** X22. A [plugins] module that is not a package has no [__path__]: the
    loader logs the [AttributeError] the access raises as an error, and the
    registry is the built-in one. *)
Theorem module_init_plugins_not_a_package (m : module) (e : exception)
    (w : world) :
  import_module "plugins" = inr m ->
  mod_path m = inl e ->
  exc_class e = AttributeError ->
  module_init import_module w
  = (Return builtin_commands,
     logging (logging w INFO Msg_started) ERROR (Msg_error_loading e)).
Proof.
  intros Himp Hpath He. rewrite module_init_scan. unfold scan_source.
  rewrite Himp, Hpath.
  cbn [failure merged reported conclude report_all fold_left merge_all].
  rewrite He.
  change (issubclass AttributeError ModuleNotFoundError) with false.
  change (issubclass AttributeError Exception) with true. cbv iota.
  unfold dict_update. rewrite (left_id ∅ (∪)). reflexivity.
Qed.

(** X23. Plugins can replace a built-in operation but not remove it: in
    every registry the start-up code builds, each of the names [add],
    [subtract], [multiply] and [divide] is bound. *)
Theorem module_init_keeps_builtin_names (w w' : world)
    (cmds : gmap string Command) :
  module_init import_module w = (Return cmds, w') ->
  is_Some (cmds !! "add") /\ is_Some (cmds !! "subtract") /\
  is_Some (cmds !! "multiply") /\ is_Some (cmds !! "divide").
Proof.
  rewrite module_init_scan. cbv zeta.
  destruct (conclude _ _ _) as [[u|e] w'']; [|discriminate].
  intros [= <- <-].
  repeat split; rewrite dict_update_lookup;
    destruct (merge_all ∅ _ !! _); eauto.
Qed.

End Loading.

(* ===================================================================== *)
(** * The further theorems at concrete calls *)
(* ===================================================================== *)

Lemma add_sum_witness :
  AddCommand_execute cpython312 ["0.1"; "0.2"; "0.3"] initial_world
  = (Return (VFloat (float_literal "0.6")),
     logging initial_world INFO
       (Msg_executed "AddCommand" ["0.1"; "0.2"; "0.3"] (VFloat (float_literal "0.6")))).
Proof.
  apply (add_sum cpython312 ["0.1"; "0.2"; "0.3"]
           [float_literal "0.1"; float_literal "0.2"; float_literal "0.3"]
           initial_world).
  - discriminate.
  - reflexivity.
Defined.

Lemma add_single_witness :
  (AddCommand_execute cpython312 ["-0.0"] initial_world).1
  = Return (VFloat (S754_zero false)).
Proof.
  apply (add_single cpython312 "-0.0" (S754_zero true) initial_world).
  reflexivity.
Defined.

Lemma subtract_difference_witness :
  SubtractCommand_execute cpython311 ["10"; "3"; "2"] initial_world
  = (Return (VFloat (float_literal "5")),
     logging initial_world INFO
       (Msg_executed "SubtractCommand" ["10"; "3"; "2"] (VFloat (float_literal "5")))).
Proof.
  apply (subtract_difference cpython311 ["10"; "3"; "2"]
           (float_literal "10") [float_literal "3"; float_literal "2"] initial_world).
  reflexivity.
Defined.

Lemma multiply_product_witness :
  MultiplyCommand_execute cpython312 ["2"; "3"; "4"] initial_world
  = (Return (VFloat (float_literal "24")),
     logging initial_world INFO
       (Msg_executed "MultiplyCommand" ["2"; "3"; "4"] (VFloat (float_literal "24")))).
Proof.
  apply (multiply_product cpython312 ["2"; "3"; "4"]
           [float_literal "2"; float_literal "3"; float_literal "4"] initial_world).
  - discriminate.
  - reflexivity.
Defined.

Lemma unparsable_token_is_invalid_input_witness :
  AddCommand_execute cpython312 ["1"; "two"] initial_world
  = (Return invalid_input,
     logging initial_world ERROR (Msg_invalid_input "addition" ["1"; "two"])) /\
  SubtractCommand_execute cpython312 ["1"; "two"] initial_world
  = (Return invalid_input,
     logging initial_world ERROR (Msg_invalid_input "subtraction" ["1"; "two"])) /\
  MultiplyCommand_execute cpython312 ["1"; "two"] initial_world
  = (Return invalid_input,
     logging initial_world ERROR (Msg_invalid_input "multiplication" ["1"; "two"])).
Proof.
  apply (unparsable_token_is_invalid_input cpython312 ["1"; "two"] initial_world).
  apply Exists_cons_tl, Exists_cons_hd. reflexivity.
Defined.

Lemma multiply_single_witness :
  (MultiplyCommand_execute cpython312 ["-0.1"] initial_world).1
  = Return (VFloat (float_literal "-0.1")).
Proof.
  apply (multiply_single cpython312 "-0.1" (float_literal "-0.1") initial_world);
    reflexivity.
Defined.

Lemma multiply_commutative_witness :
  exists r1 r2 : float,
    (MultiplyCommand_execute cpython312 ["0.1"; "3"] initial_world).1
    = Return (VFloat r1) /\
    (MultiplyCommand_execute cpython312 ["3"; "0.1"] initial_world).1
    = Return (VFloat r2) /\
    Float.is_nan r1 = Float.is_nan r2 /\
    (Float.is_nan r1 = false ->
     r1 = Float.mul (float_literal "0.1") (float_literal "3") /\
     r1 = r2 /\ Float.eqb r1 r2 = true).
Proof.
  apply (multiply_commutative cpython312 "0.1" "3"
           (float_literal "0.1") (float_literal "3") initial_world);
    reflexivity.
Defined.

Lemma divide_zero_dividend_witness :
  exists z, Float.is_zero z = true /\
            (DivideCommand_execute cpython312 ["0"; "-5"; "inf"] initial_world).1
            = Return (VFloat z).
Proof.
  apply (divide_zero_dividend cpython312 ["0"; "-5"; "inf"]
           (float_literal "0") [float_literal "-5"; float_literal "inf"]
           initial_world).
  - reflexivity.
  - discriminate.
  - reflexivity.
  - repeat constructor.
Defined.

Lemma repl_ignores_spacing_witness :
  repl_iteration cpython312 (Some (Line "  add    4   5  ")) (builtin_process, initial_world)
  = repl_iteration cpython312 (Some (Line "add 4 5")) (builtin_process, initial_world).
Proof.
  apply (repl_ignores_spacing cpython312 "  add    4   5  " "add 4 5"
           builtin_process initial_world).
  reflexivity.
Defined.

Lemma repl_blank_line_witness :
  repl_loop cpython312 [Line "   "; Line "exit"] (builtin_process, initial_world)
  = repl_loop cpython312 [Line "exit"] (prompted builtin_process, initial_world).
Proof.
  apply (repl_blank_line cpython312 "   " [Line "exit"] builtin_process initial_world).
  reflexivity.
Defined.

Lemma repl_exit_witness :
  repl_loop cpython312 [Line "exit now"; Line "add 1 2"] (builtin_process, initial_world)
  = (Return tt,
     (printed (prompted builtin_process) [VStr goodbye],
      logging initial_world INFO Msg_user_exited)).
Proof.
  apply (repl_exit cpython312 "exit now" ["now"] [Line "add 1 2"]
           builtin_process initial_world).
  reflexivity.
Defined.

Lemma repl_menu_witness :
  repl_loop cpython312 [Line "menu"; Line "exit"] (plugin_process, initial_world)
  = repl_loop cpython312 [Line "exit"]
      (printed (prompted plugin_process)
         [VStr "Available commands:";
          VStr (Str.join ", " (menu_names (commands plugin_process)))],
       initial_world) /\
  Sorted Str.le (menu_names (commands plugin_process)) /\
  NoDup (menu_names (commands plugin_process)) /\
  (forall name, name ∈ menu_names (commands plugin_process)
                <-> is_Some (commands plugin_process !! name)).
Proof.
  apply (repl_menu cpython312 "menu" [] [Line "exit"] plugin_process initial_world).
  reflexivity.
Defined.

Lemma repl_unknown_command_witness :
  repl_loop cpython312 [Line "Add 1 2"; Line "exit"] (builtin_process, initial_world)
  = repl_loop cpython312 [Line "exit"]
      (printed (prompted builtin_process) [invalid_command], initial_world).
Proof.
  apply (repl_unknown_command cpython312 "Add 1 2" "Add" ["1"; "2"] [Line "exit"]
           builtin_process initial_world).
  - reflexivity.
  - discriminate.
  - discriminate.
  - reflexivity.
Defined.

Lemma repl_known_command_witness :
  repl_loop cpython312 [Line "divide 8 2"; Line "exit"] (builtin_process, initial_world)
  = repl_loop cpython312 [Line "exit"]
      (printed (prompted builtin_process) [VStr "Result:"; VFloat (float_literal "4")],
       mk_world
         [(INFO, Msg_executed "DivideCommand" ["8"; "2"] (VFloat (float_literal "4")))]
         1).
Proof.
  apply (repl_known_command cpython312 "divide 8 2" "divide" ["8"; "2"] [Line "exit"]
           builtin_process initial_world _ DivideCommand).
  - reflexivity.
  - discriminate.
  - discriminate.
  - reflexivity.
  - reflexivity.
Defined.

Lemma repl_command_raises_witness :
  repl_loop cpython312 [Line "boom 1"; Line "exit"] (plugin_process, initial_world)
  = (Raise (mk_exception TypeError "unsupported operand type(s)"),
     (prompted plugin_process, initial_world)).
Proof.
  apply (repl_command_raises cpython312 "boom 1" "boom" ["1"] [Line "exit"]
           plugin_process initial_world initial_world failing_command
           (mk_exception TypeError "unsupported operand type(s)")).
  - reflexivity.
  - discriminate.
  - discriminate.
  - reflexivity.
  - reflexivity.
Defined.

Lemma repl_builtin_session_witness :
  (repl cpython312 [Line "add 2 2"; Line "multiply 2 3"] (builtin_process, initial_world)).1
  = Raise (mk_exception EOFError "EOF when reading a line") /\
  (repl cpython312 [Line "add 2 2"; Line "exit"; Line "multiply 2 3"]
     (builtin_process, initial_world)).1
  = Return tt.
Proof.
  assert (Hb : forall name c, commands builtin_process !! name = Some c -> is_builtin c).
  { intros name c. cbn [commands builtin_process].
    rewrite builtin_commands_lookup.
    repeat (destruct (String.eqb name _); [intros [= <-]; exact I|]).
    discriminate. }
  split.
  - apply (repl_builtin_session cpython312 [Line "add 2 2"; Line "multiply 2 3"]
             builtin_process initial_world Hb).
  - apply (repl_builtin_session cpython312
             [Line "add 2 2"; Line "exit"; Line "multiply 2 3"]
             builtin_process initial_world Hb).
Defined.

Lemma load_modules_stops_at_failure_witness :
  PluginLoader.load_modules exiting_plugin ["a"; "b"; "c"; "d"] None
    (PluginLoader.mk_self "plugins" ∅, initial_world)
  = PluginLoader.load_modules exiting_plugin ["a"; "b"] None
      (PluginLoader.mk_self "plugins" ∅, initial_world).
Proof.
  apply (load_modules_stops_at_failure exiting_plugin ["a"] ["c"; "d"] "b" None
           (mk_exception SystemExit "") (PluginLoader.mk_self "plugins" ∅)
           initial_world).
  reflexivity.
Defined.

Lemma load_plugins_last_binding_wins_witness :
  PluginLoader.commands
    (PluginLoader.load_plugins two_plugins
       (PluginLoader.mk_self "plugins" ∅, initial_world)).2.1
  !! "square" = Some DivideCommand.
Proof.
  apply (load_plugins_last_binding_wins two_plugins
           (PluginLoader.mk_self "plugins" ∅) initial_world
           [{[ "square" := MultiplyCommand ]}] []
           (<["add" := SubtractCommand]> {[ "square" := DivideCommand ]})
           "square" DivideCommand).
  - reflexivity.
  - reflexivity.
  - constructor.
Defined.

Lemma module_init_without_plugins_witness :
  module_init no_plugins initial_world
  = (Return builtin_commands,
     logging (logging initial_world INFO Msg_started) WARNING
       (Msg_package_not_found "plugins")).
Proof.
  apply (module_init_without_plugins no_plugins
           (mk_exception ModuleNotFoundError "No module named 'plugins'")
           initial_world);
    reflexivity.
Defined.

Lemma module_init_plugins_not_a_package_witness :
  module_init plugins_is_a_file initial_world
  = (Return builtin_commands,
     logging (logging initial_world INFO Msg_started) ERROR
       (Msg_error_loading
          (mk_exception AttributeError
             "module 'plugins' has no attribute '__path__'"))).
Proof.
  apply (module_init_plugins_not_a_package plugins_is_a_file
           (mk_module (inl (no_path "plugins")) None)
           (no_path "plugins") initial_world);
    reflexivity.
Defined.

Lemma module_init_keeps_builtin_names_witness :
  let cmds := dict_update builtin_commands
                (merge_all ∅ (merged (scan_source two_plugins "plugins"))) in
  cmds !! "add" = Some SubtractCommand /\
  (is_Some (cmds !! "add") /\ is_Some (cmds !! "subtract") /\
   is_Some (cmds !! "multiply") /\ is_Some (cmds !! "divide")).
Proof.
  split; [reflexivity|].
  apply (module_init_keeps_builtin_names two_plugins initial_world
           (mk_world [(INFO, Msg_started); (INFO, Msg_loaded_plugin "a");
                      (INFO, Msg_loaded_plugin "b")] 0)).
  reflexivity.
Defined.
